(** * AuditEventsModule: audit-event stores, registry, facade and request adapter

    A shallow embedding of the Go package [audit] (audit.go, db_audit.go,
    factory.go, middleware.go) and the properties of its two storage
    backends, of the process-wide registry and of the HTTP adapter.

    Conventions.
    - Go [string] is [string]; Go [[]byte] is [list byte].
    - Go [int64] is [Z]; the code only compares and copies these values.
    - [time.Now().Unix()] is an explicit argument [now] of the operations
      that read the clock.
    - [sync.Mutex] Lock/Unlock pairs are the identity on the sequential
      state that is modelled here.
    - A Go [error] is an [option error], [None] being nil; a function
      returning [(T, error)] returns a pair; a pointer is an [option], [None]
      being nil. A nil-pointer dereference is the outcome [Panics]. *)

From Stdlib Require Import ZArith String Ascii List Lia Sorted Permutation.
From Stdlib.Strings Require Import Byte.
From Stdlib Require Import DecimalPos DecimalN DecimalZ DecimalString.
From stdpp Require Import gmap strings list.
Import ListNotations.

Set Default Proof Using "Type".

(** ** Data model *)

(** Values an [interface{}] holds after a trip through [encoding/json]:
    [JNull] is the nil interface. *)
#[local] Unset Elimination Schemes.
Inductive json : Type :=
| JNull
| JBool (b : bool)
| JNumber (n : Z)
| JString (s : string)
| JArray (l : list json)
| JObject (kvs : list (string * json)).
#[local] Set Elimination Schemes.

(** [type AuditEvent struct] of audit.go. *)
Record AuditEvent : Type := mkAuditEvent {
  Username : string;
  ActionString : string;
  ExtraMsg : string;
  EpochTimestampSec : Z;
  OrgID : Z;
  Metadata : json
}.

(** One row of the table [audit_events] of db_audit.go. The [id] column is
    the position of the row in the table; [extra_msg] and [metadata] are the
    two columns declared without [NOT NULL]. *)
Record Row : Type := mkRow {
  username : string;
  action_string : string;
  extra_msg : option string;
  epoch_timestamp_sec : Z;
  org_id : Z;
  metadata : option string
}.

(** The errors the package builds with [fmt.Errorf]; [Error] gives the
    message prefix of each. *)
Inductive error : Type :=
| ErrCreateFile
| ErrMarshalEvent
| ErrOpenFile
| ErrWriteFile
| ErrReadLog
| ErrOpenDatabase
| ErrCreateTable
| ErrMarshalMetadata
| ErrInsert
| ErrQuery
| ErrScanRow
| ErrFilePathNotProvided
| ErrDBPathNotProvided
| ErrUnsupportedLoggerType (loggerType : string)
| ErrNotInitialized.

Definition Error (e : error) : string :=
  match e with
  | ErrCreateFile => "failed to create audit log file"
  | ErrMarshalEvent => "failed to marshal audit event"
  | ErrOpenFile => "failed to open audit log file"
  | ErrWriteFile => "failed to write to audit log file"
  | ErrReadLog => "error reading audit log"
  | ErrOpenDatabase => "failed to open database"
  | ErrCreateTable => "failed to create audit events table"
  | ErrMarshalMetadata => "failed to marshal metadata"
  | ErrInsert => "failed to insert audit event"
  | ErrQuery => "failed to query audit events"
  | ErrScanRow => "failed to scan audit event row"
  | ErrFilePathNotProvided => "file path not provided for file logger"
  | ErrDBPathNotProvided => "database path not provided for DB logger"
  | ErrUnsupportedLoggerType t => "unsupported logger type: " +:+ t
  | ErrNotInitialized => "audit logger not initialized, call InitAuditLogger first"
  end.

(** A call either returns or dereferences a nil pointer. *)
Inductive outcome (A : Type) : Type :=
| Returns (a : A)
| Panics.
Arguments Returns {A} a.
Arguments Panics {A}.

(** ** The JSON codec

    [encoding/json] is a library the package calls; it is taken as an
    interface together with the part of its contract the stores rely on.
    [JNull] metadata is the nil interface, which [omitempty] leaves out of
    the serialized event. *)
Class JSONCodec : Type := {
  (** [json.Marshal(metadata)] *)
  json_Marshal : json -> option (list byte);
  (** [json.Unmarshal(data, &metadata)], [metadata] an [interface{}] *)
  json_Unmarshal : list byte -> option json;
  (** [json.Marshal(event)] *)
  json_MarshalEvent : AuditEvent -> option (list byte);
  (** [json.Unmarshal(line, &event)] *)
  json_UnmarshalEvent : list byte -> option AuditEvent;
  Unmarshal_Marshal :
    forall v b, json_Marshal v = Some b -> json_Unmarshal b = Some v;
  Marshal_nonempty :
    forall v b, json_Marshal v = Some b -> b <> [];
  UnmarshalEvent_MarshalEvent :
    forall e b, json_MarshalEvent e = Some b -> json_UnmarshalEvent b = Some e;
  MarshalEvent_one_line :
    forall e b, json_MarshalEvent e = Some b -> ~ In x0a b;
  MarshalEvent_defined :
    forall e, is_Some (json_MarshalEvent e) <->
              (Metadata e = JNull \/ is_Some (json_Marshal (Metadata e)))
}.

(** ** The operating system seen by the stores

    [files] are the regular files that exist; [stat_errors] are the paths on
    which [os.Stat] fails with an error other than "does not exist" (and that
    cannot be opened either); [uncreatable] are the paths [os.Create] cannot
    create; [disk_full] makes writes fail. [databases] are the SQLite
    databases that exist, by data source name, each with the rows of
    [audit_events] in [id] order; [db_unavailable] are the data sources on
    which statements fail. *)
Record OS : Type := mkOS {
  files : gmap string (list byte);
  stat_errors : gset string;
  uncreatable : gset string;
  disk_full : bool;
  databases : gmap string (list Row);
  db_unavailable : gset string
}.

Definition set_files (f : gmap string (list byte)) (os : OS) : OS :=
  mkOS f (stat_errors os) (uncreatable os) (disk_full os)
       (databases os) (db_unavailable os).

Definition set_databases (d : gmap string (list Row)) (os : OS) : OS :=
  mkOS (files os) (stat_errors os) (uncreatable os) (disk_full os)
       d (db_unavailable os).

Inductive stat_result : Type :=
| StatOk
| StatNotExist
| StatError.

Definition os_Stat (name : string) (os : OS) : stat_result :=
  if decide (name ∈ stat_errors os) then StatError
  else match files os !! name with
       | Some _ => StatOk
       | None => StatNotExist
       end.

(** [os.IsNotExist(err)] on the error of [os.Stat]. *)
Definition os_IsNotExist (r : stat_result) : bool :=
  match r with
  | StatNotExist => true
  | _ => false
  end.

(** [os.Create]: creates or truncates; [None] is the error. *)
Definition os_Create (name : string) (os : OS) : option OS :=
  if decide (name ∈ uncreatable os) then None
  else Some (set_files (<[name := []]> (files os)) os).

(** [os.Open] and [os.OpenFile(name, O_APPEND|O_WRONLY, 0644)]: the contents
    of the file that was opened; [None] is the error. No [O_CREATE]: a
    missing file is an error. *)
Definition os_Open (name : string) (os : OS) : option (list byte) :=
  if decide (name ∈ stat_errors os) then None else files os !! name.

(** [file.Write(data)] on a file opened with [O_APPEND]. *)
Definition file_Write (name : string) (data : list byte) (os : OS) : option OS :=
  if disk_full os then None
  else match files os !! name with
       | Some contents => Some (set_files (<[name := contents ++ data]> (files os)) os)
       | None => None
       end.

(** ** audit.go: the file store *)

(** [type JSONScanner struct]; [file] is the part of the file that has not
    been read yet. [buffer] is never used. *)
Record JSONScanner : Type := mkJSONScanner {
  file : list byte;
  err : option error;
  current : list byte
}.

Definition NewJSONScanner (contents : list byte) : JSONScanner :=
  mkJSONScanner contents None [].

(** The [for] loop of [Scan]: [line] is the line read so far. The result is
    the completed line, if one was found, and what is left of the file. *)
Fixpoint Scan_loop (file line : list byte) : option (list byte) * list byte :=
  match file with
  | [] => if (0 <? length line)%nat then (Some line, []) else (None, [])
  | b :: file' =>
      if Byte.eqb b x0a then (Some line, file')
      else Scan_loop file' (line ++ [b])
  end.

Definition Scan (s : JSONScanner) : bool * JSONScanner :=
  match Scan_loop (file s) [] with
  | (Some line, file') => (true, mkJSONScanner file' (err s) line)
  | (None, file') => (false, mkJSONScanner file' (err s) (current s))
  end.

Definition Bytes (s : JSONScanner) : list byte := current s.

Definition Err (s : JSONScanner) : option error := err s.

(** The filter of [FileAuditLogger.ReadAuditEvents]. *)
Definition file_filter (orgID startEpochSec endEpochSec : Z) (event : AuditEvent) : bool :=
  (OrgID event =? orgID)%Z &&
  (EpochTimestampSec event >=? startEpochSec)%Z &&
  ((endEpochSec =? 0)%Z || (EpochTimestampSec event <=? endEpochSec)%Z).

Module FileAuditLogger.
Section FileAuditLogger.
Context `{JSONCodec}.

(** [type FileAuditLogger struct]. *)
Record t : Type := mk { filePath : string }.

Definition CreateAuditEvent (l : t) (username actionString extraMsg : string)
    (epochTimestampSec orgID : Z) (metadata : json) (now : Z) (os : OS)
    : option error * OS :=
  let epochTimestampSec :=
    if (epochTimestampSec =? 0)%Z then now else epochTimestampSec in
  let event :=
    mkAuditEvent username actionString extraMsg epochTimestampSec orgID metadata in
  match json_MarshalEvent event with
  | None => (Some ErrMarshalEvent, os)
  | Some eventJSON =>
      match os_Open (filePath l) os with
      | None => (Some ErrOpenFile, os)
      | Some _ =>
          match file_Write (filePath l) (eventJSON ++ [x0a]) os with
          | None => (Some ErrWriteFile, os)
          | Some os' => (None, os')
          end
      end
  end.

(** The [for scanner.Scan()] loop of [ReadAuditEvents]. Every successful
    [Scan] shortens [file], so [fuel] above the length of the file is
    never used up. *)
Fixpoint scan_events (fuel : nat) (orgID startEpochSec endEpochSec : Z)
    (scanner : JSONScanner) (events : list AuditEvent)
    : list AuditEvent * JSONScanner :=
  match fuel with
  | O => (events, scanner)
  | S fuel' =>
      let '(more, scanner) := Scan scanner in
      if more then
        match json_UnmarshalEvent (Bytes scanner) with
        | None => scan_events fuel' orgID startEpochSec endEpochSec scanner events
        | Some event =>
            if file_filter orgID startEpochSec endEpochSec event
            then scan_events fuel' orgID startEpochSec endEpochSec scanner
                             (events ++ [event])
            else scan_events fuel' orgID startEpochSec endEpochSec scanner events
        end
      else (events, scanner)
  end.

Definition ReadAuditEvents (l : t) (orgID startEpochSec endEpochSec : Z) (os : OS)
    : list AuditEvent * option error :=
  match os_Open (filePath l) os with
  | None => ([], Some ErrOpenFile)
  | Some contents =>
      let '(events, scanner) :=
        scan_events (S (length contents)) orgID startEpochSec endEpochSec
                    (NewJSONScanner contents) [] in
      match Err scanner with
      | Some _ => ([], Some ErrReadLog)
      | None => (events, None)
      end
  end.

End FileAuditLogger.
End FileAuditLogger.

(** [NewFileAuditLogger]: the logger, or nil and the error. *)
Definition NewFileAuditLogger (filePath : string) (os : OS)
    : option FileAuditLogger.t * option error * OS :=
  if os_IsNotExist (os_Stat filePath os) then
    match os_Create filePath os with
    | None => (None, Some ErrCreateFile, os)
    | Some os' => (Some (FileAuditLogger.mk filePath), None, os')
    end
  else (Some (FileAuditLogger.mk filePath), None, os).

(** ** db_audit.go: the relational store *)

(** The statement [ReadAuditEvents] builds: the arguments bound to
    [org_id = ?] and [epoch_timestamp_sec >= ?], and the argument of the
    clause [AND epoch_timestamp_sec <= ?] when it was added. The statement
    always ends in [ORDER BY epoch_timestamp_sec ASC]. *)
Record Query : Type := mkQuery {
  arg_org_id : Z;
  arg_start : Z;
  arg_end : option Z
}.

Definition where_clause (q : Query) (row : Row) : bool :=
  (org_id row =? arg_org_id q)%Z &&
  (epoch_timestamp_sec row >=? arg_start q)%Z &&
  match arg_end q with
  | Some e => (epoch_timestamp_sec row <=? e)%Z
  | None => true
  end.

(** [ORDER BY epoch_timestamp_sec ASC]. Rows with the same timestamp keep
    their [id] order, as a scan of the index [idx_org_time] yields them. *)
Fixpoint insert_by_ts (row : Row) (rows : list Row) : list Row :=
  match rows with
  | [] => [row]
  | row' :: rows' =>
      if (epoch_timestamp_sec row <=? epoch_timestamp_sec row')%Z
      then row :: rows
      else row' :: insert_by_ts row rows'
  end.

Definition order_by_ts (rows : list Row) : list Row :=
  foldr insert_by_ts [] rows.

Definition select (q : Query) (table : list Row) : list Row :=
  order_by_ts (List.filter (where_clause q) table).

(** [db.Exec(createTableSQL)]: [CREATE TABLE IF NOT EXISTS]. *)
Definition db_Exec_create (dsn : string) (os : OS) : option OS :=
  if decide (dsn ∈ db_unavailable os) then None
  else match databases os !! dsn with
       | Some _ => Some os
       | None => Some (set_databases (<[dsn := []]> (databases os)) os)
       end.

(** [db.Exec(insertSQL, ...)]. *)
Definition db_Exec_insert (dsn : string) (row : Row) (os : OS) : option OS :=
  if decide (dsn ∈ db_unavailable os) then None
  else match databases os !! dsn with
       | Some table => Some (set_databases (<[dsn := table ++ [row]]> (databases os)) os)
       | None => None
       end.

(** [db.Query(query, args...)]. *)
Definition db_Query (dsn : string) (q : Query) (os : OS) : option (list Row) :=
  if decide (dsn ∈ db_unavailable os) then None
  else select q <$> databases os !! dsn.

(** [metadata != nil] *)
Definition not_nil (metadata : json) : bool :=
  match metadata with
  | JNull => false
  | _ => true
  end.

Module DBAuditLogger.
Section DBAuditLogger.
Context `{JSONCodec}.

(** [type DBAuditLogger struct]; the handle [db] is the data source name it
    was opened on. *)
Record t : Type := mk { db : string }.

Definition CreateAuditEvent (l : t) (username actionString extraMsg : string)
    (epochTimestampSec orgID : Z) (metadata : json) (now : Z) (os : OS)
    : option error * OS :=
  let epochTimestampSec :=
    if (epochTimestampSec =? 0)%Z then now else epochTimestampSec in
  match (if not_nil metadata then json_Marshal metadata else Some []) with
  | None => (Some ErrMarshalMetadata, os)
  | Some metadataJSON =>
      let row := mkRow username actionString (Some extraMsg) epochTimestampSec
                       orgID (Some (string_of_list_byte metadataJSON)) in
      match db_Exec_insert (db l) row os with
      | None => (Some ErrInsert, os)
      | Some os' => (None, os')
      end
  end.

(** The body of the [for rows.Next()] loop after a successful [rows.Scan]
    of a row whose [extra_msg] is [extraMsg]. *)
Definition scan_row (row : Row) (extraMsg : string) : AuditEvent :=
  let event := mkAuditEvent (username row) (action_string row) extraMsg
                            (epoch_timestamp_sec row) (org_id row) JNull in
  match metadata row with
  | Some metadataStr =>
      if negb (metadataStr =? "")%string then
        match json_Unmarshal (list_byte_of_string metadataStr) with
        | Some metadata =>
            mkAuditEvent (Username event) (ActionString event) (ExtraMsg event)
                         (EpochTimestampSec event) (OrgID event) metadata
        | None => event
        end
      else event
  | None => event
  end.

(** The [for rows.Next()] loop: [rows.Scan] cannot store NULL in the
    [string] field [ExtraMsg]. *)
Fixpoint scan_rows (rows : list Row) (events : list AuditEvent)
    : list AuditEvent * option error :=
  match rows with
  | [] => (events, None)
  | row :: rows' =>
      match extra_msg row with
      | None => ([], Some ErrScanRow)
      | Some extraMsg => scan_rows rows' (events ++ [scan_row row extraMsg])
      end
  end.

Definition ReadAuditEvents (l : t) (orgID startEpochSec endEpochSec : Z) (os : OS)
    : list AuditEvent * option error :=
  let query := mkQuery orgID startEpochSec None in
  let query :=
    if (endEpochSec >? 0)%Z
    then mkQuery (arg_org_id query) (arg_start query) (Some endEpochSec)
    else query in
  match db_Query (db l) query os with
  | None => ([], Some ErrQuery)
  | Some rows => scan_rows rows []
  end.

End DBAuditLogger.
End DBAuditLogger.

(** [sql.Open("sqlite3", dbPath)]: the driver is registered by the import,
    and no connection is made before the first statement. *)
Definition sql_Open (dbPath : string) : option string := Some dbPath.

(** [NewDBAuditLogger]: the logger, or nil and the error. *)
Definition NewDBAuditLogger (dbPath : string) (os : OS)
    : option DBAuditLogger.t * option error * OS :=
  match sql_Open dbPath with
  | None => (None, Some ErrOpenDatabase, os)
  | Some db =>
      match db_Exec_create db os with
      | None => (None, Some ErrCreateTable, os)
      | Some os' => (Some (DBAuditLogger.mk db), None, os')
      end
  end.

(** ** factory.go: the registry and the convenience functions *)

(** A value of the interface type [AuditLogger]: the nil interface, or a
    pointer of one of the two implementing types. The pointer itself may be
    nil, and such a value is not the nil interface. *)
Inductive AuditLogger : Type :=
| nil_AuditLogger
| File_AuditLogger (l : option FileAuditLogger.t)
| DB_AuditLogger (l : option DBAuditLogger.t).

Definition FileLoggerType : string := "file".
Definition DBLoggerType : string := "db".

(** The package variable [loggerInstance] and the world outside. *)
Record State : Type := mkState {
  loggerInstance : AuditLogger;
  env : OS
}.

(** [InitAuditLogger]. The assignments
    [loggerInstance, err = NewFileAuditLogger(filePath)] and
    [loggerInstance, err = NewDBAuditLogger(dbPath)] store the pointer the
    constructor returned, nil or not, before [err] is returned. *)
Definition InitAuditLogger (loggerType : string) (config : gmap string string)
    (st : State) : option error * State :=
  if (loggerType =? FileLoggerType)%string then
    match config !! "filePath" with
    | None => (Some ErrFilePathNotProvided, st)
    | Some filePath =>
        let '(l, err, os') := NewFileAuditLogger filePath (env st) in
        (err, mkState (File_AuditLogger l) os')
    end
  else if (loggerType =? DBLoggerType)%string then
    match config !! "dbPath" with
    | None => (Some ErrDBPathNotProvided, st)
    | Some dbPath =>
        let '(l, err, os') := NewDBAuditLogger dbPath (env st) in
        (err, mkState (DB_AuditLogger l) os')
    end
  else (Some (ErrUnsupportedLoggerType loggerType), st).

(** [GetAuditLogger]: [loggerInstance == nil] holds of the nil interface
    only. *)
Definition GetAuditLogger (st : State) : AuditLogger * option error :=
  match loggerInstance st with
  | nil_AuditLogger => (nil_AuditLogger, Some ErrNotInitialized)
  | logger => (logger, None)
  end.

Section Facade.
Context `{JSONCodec}.

(** [logger.CreateAuditEvent(...)] through the interface. Both methods
    start by reading a field of the receiver ([l.mu], [l.db]). *)
Definition call_CreateAuditEvent (logger : AuditLogger)
    (username actionString extraMsg : string) (epochTimestampSec orgID : Z)
    (metadata : json) (now : Z) (os : OS) : outcome (option error * OS) :=
  match logger with
  | File_AuditLogger (Some l) =>
      Returns (FileAuditLogger.CreateAuditEvent l username actionString extraMsg
                 epochTimestampSec orgID metadata now os)
  | DB_AuditLogger (Some l) =>
      Returns (DBAuditLogger.CreateAuditEvent l username actionString extraMsg
                 epochTimestampSec orgID metadata now os)
  | _ => Panics
  end.

(** [logger.ReadAuditEvents(...)] through the interface. *)
Definition call_ReadAuditEvents (logger : AuditLogger)
    (orgID startEpochSec endEpochSec : Z) (os : OS)
    : outcome (list AuditEvent * option error) :=
  match logger with
  | File_AuditLogger (Some l) =>
      Returns (FileAuditLogger.ReadAuditEvents l orgID startEpochSec endEpochSec os)
  | DB_AuditLogger (Some l) =>
      Returns (DBAuditLogger.ReadAuditEvents l orgID startEpochSec endEpochSec os)
  | _ => Panics
  end.

Definition CreateAuditEvent (username actionString extraMsg : string)
    (epochTimestampSec orgID : Z) (metadata : json) (now : Z) (st : State)
    : outcome (option error * State) :=
  let '(logger, err) := GetAuditLogger st in
  match err with
  | Some e => Returns (Some e, st)
  | None =>
      match call_CreateAuditEvent logger username actionString extraMsg
              epochTimestampSec orgID metadata now (env st) with
      | Returns (e, os') => Returns (e, mkState (loggerInstance st) os')
      | Panics => Panics
      end
  end.

Definition ReadAuditEvents (orgID startEpochSec endEpochSec : Z) (st : State)
    : outcome (list AuditEvent * option error) :=
  let '(logger, err) := GetAuditLogger st in
  match err with
  | Some e => Returns ([], Some e)
  | None => call_ReadAuditEvents logger orgID startEpochSec endEpochSec (env st)
  end.

End Facade.

(** ** middleware.go: the request adapter *)

(** [strings.Split(s, " ")] *)
Fixpoint strings_Split_space (s : string) : list string :=
  match s with
  | EmptyString => [EmptyString]
  | String c s' =>
      if Ascii.eqb c " " then EmptyString :: strings_Split_space s'
      else match strings_Split_space s' with
           | part :: parts => String c part :: parts
           | [] => [String c EmptyString]
           end
  end.

Definition strings_HasPrefix (s prefix : string) : bool := String.prefix prefix s.

Definition strings_HasSuffix (s suffix : string) : bool :=
  (String.length suffix <=? String.length s)%nat &&
  (substring (String.length s - String.length suffix) (String.length suffix) s
   =? suffix)%string.

Definition strings_TrimSuffix (s suffix : string) : string :=
  if strings_HasSuffix s suffix
  then substring 0 (String.length s - String.length suffix) s
  else s.

(** The dynamic types of the values a request context holds. *)
Inductive ctx_value : Type :=
| ctx_string (s : string)
| ctx_int64 (n : Z)
| ctx_int (n : Z)
| ctx_bool (b : bool).

Definition AuditUserKey : string := "audit_username".
Definition AuditOrgIDKey : string := "audit_org_id".

(** What the adapter reads of [*http.Request]. *)
Record Request : Type := mkRequest {
  Method : string;
  URL_Path : string;
  RequestURI : string;
  UserAgent : string;
  RemoteAddr : string;
  Context : gmap string ctx_value
}.

Definition WithAuditContext (r : Request) (username : string) (orgID : Z) : Request :=
  let ctx := <[AuditUserKey := ctx_string username]> (Context r) in
  let ctx := <[AuditOrgIDKey := ctx_int64 orgID]> ctx in
  mkRequest (Method r) (URL_Path r) (RequestURI r) (UserAgent r) (RemoteAddr r) ctx.

Definition getUsernameFromContext (ctx : gmap string ctx_value) : string :=
  match ctx !! AuditUserKey with
  | Some (ctx_string username) => username
  | _ => "unknown"
  end.

Definition getOrgIDFromContext (ctx : gmap string ctx_value) : Z :=
  match ctx !! AuditOrgIDKey with
  | Some (ctx_int64 orgID) => orgID
  | _ => 0%Z
  end.

(** Whether one entry of the mapping matches the request: the body of the
    [range actionMapping] loop up to the assignment of [actionString]. *)
Definition pattern_matches (pattern method path : string) : bool :=
  match strings_Split_space pattern with
  | [methodPattern; pathPattern] =>
      if negb (methodPattern =? "*")%string && negb (methodPattern =? method)%string
      then false
      else if strings_HasSuffix pathPattern "*"
           then strings_HasPrefix path (strings_TrimSuffix pathPattern "*")
           else (pathPattern =? path)%string
  | _ => false
  end.

(** The [range actionMapping] loop; [entries] are the entries of the map in
    the order this execution of the loop visits them. The result is
    [actionString] after the loop. *)
Fixpoint find_action (entries : list (string * string)) (method path : string) : string :=
  match entries with
  | [] => ""
  | (pattern, action) :: entries' =>
      if pattern_matches pattern method path then action
      else find_action entries' method path
  end.

(** [fmt.Sprintf("%d", n)] *)
Definition Sprintf_d (n : Z) : string := NilZero.string_of_int (Z.to_int n).

Definition action_label (entries : list (string * string)) (method path : string) : string :=
  let actionString := find_action entries method path in
  if (actionString =? "")%string
  then method +:+ " request to " +:+ path
  else actionString.

Section Middleware.
Context `{JSONCodec}.

(** [time.Duration.String] *)
Variable Duration_String : Z -> string.

(** The handler [AuditMiddleware(actionMapping)(next)] on one request.
    [entries] is the visiting order of [actionMapping]; [next] returns the
    status codes it passed to [WriteHeader] and the state it leaves;
    [duration] is [time.Since(startTime)] in nanoseconds. *)
Definition AuditMiddleware (entries : list (string * string))
    (next : Request -> State -> list Z * State)
    (r : Request) (duration now : Z) (st : State) : outcome State :=
  let username := getUsernameFromContext (Context r) in
  let orgID := getOrgIDFromContext (Context r) in
  let path := URL_Path r in
  let method := Method r in
  let actionString := action_label entries method path in
  let '(codes, st) := next r st in
  let statusCode := List.last codes 200%Z in
  let extraMsg :=
    "Status: " +:+ Sprintf_d statusCode +:+ ", Duration: " +:+ Duration_String duration in
  let metadata :=
    JObject [("durationMs", JNumber (Z.quot duration 1000000));
             ("remoteAddr", JString (RemoteAddr r));
             ("requestURI", JString (RequestURI r));
             ("statusCode", JNumber statusCode);
             ("userAgent", JString (UserAgent r))] in
  match CreateAuditEvent username actionString extraMsg now orgID metadata now st with
  | Returns (_, st) => Returns st
  | Panics => Panics
  end.

End Middleware.

(** ** A JSON codec

    A printer and a parser for compact JSON texts, with the escapes
    [encoding/json] writes: the short escapes for the quote, the backslash,
    newline, carriage return and tab, and [\u00XY] for the other control
    characters and for [<], [>] and [&]. Numbers are integers. The parser
    reads what the printer writes and compact texts like it. *)
Module JSON.
#[local] Open Scope byte_scope.

Definition quote : byte := x22.
Definition backslash : byte := x5c.

Fixpoint bytes_of_uint (u : Decimal.uint) : list byte :=
  match u with
  | Decimal.Nil => []
  | Decimal.D0 u => "0" :: bytes_of_uint u
  | Decimal.D1 u => "1" :: bytes_of_uint u
  | Decimal.D2 u => "2" :: bytes_of_uint u
  | Decimal.D3 u => "3" :: bytes_of_uint u
  | Decimal.D4 u => "4" :: bytes_of_uint u
  | Decimal.D5 u => "5" :: bytes_of_uint u
  | Decimal.D6 u => "6" :: bytes_of_uint u
  | Decimal.D7 u => "7" :: bytes_of_uint u
  | Decimal.D8 u => "8" :: bytes_of_uint u
  | Decimal.D9 u => "9" :: bytes_of_uint u
  end.

Definition encode_int (n : Z) : list byte :=
  if (n <? 0)%Z then "-" :: bytes_of_uint (N.to_uint (Z.abs_N n))
  else bytes_of_uint (N.to_uint (Z.abs_N n)).

Definition hex_digit (n : N) : byte :=
  match n with
  | 0%N => "0" | 1%N => "1" | 2%N => "2" | 3%N => "3"
  | 4%N => "4" | 5%N => "5" | 6%N => "6" | 7%N => "7"
  | 8%N => "8" | 9%N => "9" | 10%N => "a" | 11%N => "b"
  | 12%N => "c" | 13%N => "d" | 14%N => "e" | _ => "f"
  end.

Definition escape_byte (b : byte) : list byte :=
  if Byte.eqb b quote then [backslash; quote]
  else if Byte.eqb b backslash then [backslash; backslash]
  else if Byte.eqb b x0a then [backslash; "n"]
  else if Byte.eqb b x0d then [backslash; "r"]
  else if Byte.eqb b x09 then [backslash; "t"]
  else if (Byte.to_N b <? 32)%N || Byte.eqb b "<" || Byte.eqb b ">" || Byte.eqb b "&"
       then [backslash; "u"; "0"; "0";
             hex_digit (Byte.to_N b / 16); hex_digit (Byte.to_N b mod 16)]
       else [b].

Definition encode_bytes (bs : list byte) : list byte :=
  quote :: flat_map escape_byte bs ++ [quote].

Definition encode_string (s : string) : list byte :=
  encode_bytes (list_byte_of_string s).

(** The elements of an array or the members of an object, with the commas
    between them and the closing bracket. *)
Definition encode_list {A : Type} (enc : A -> list byte) (close : byte)
    : list A -> list byte :=
  fix go (l : list A) : list byte :=
    match l with
    | [] => [close]
    | x :: l' =>
        enc x ++ match l' with
                 | [] => [close]
                 | _ :: _ => "," :: go l'
                 end
    end.

Fixpoint encode (v : json) : list byte :=
  match v with
  | JNull => ["n"; "u"; "l"; "l"]
  | JBool true => ["t"; "r"; "u"; "e"]
  | JBool false => ["f"; "a"; "l"; "s"; "e"]
  | JNumber n => encode_int n
  | JString s => encode_string s
  | JArray l => "[" :: encode_list encode "]" l
  | JObject kvs =>
      "{" :: encode_list (fun kv => encode_string (fst kv) ++ ":" :: encode (snd kv))
                         "}" kvs
  end.

Definition digit_of (b : byte) : option (Decimal.uint -> Decimal.uint) :=
  if Byte.eqb b "0" then Some Decimal.D0
  else if Byte.eqb b "1" then Some Decimal.D1
  else if Byte.eqb b "2" then Some Decimal.D2
  else if Byte.eqb b "3" then Some Decimal.D3
  else if Byte.eqb b "4" then Some Decimal.D4
  else if Byte.eqb b "5" then Some Decimal.D5
  else if Byte.eqb b "6" then Some Decimal.D6
  else if Byte.eqb b "7" then Some Decimal.D7
  else if Byte.eqb b "8" then Some Decimal.D8
  else if Byte.eqb b "9" then Some Decimal.D9
  else None.

(** The longest run of digits at the head of [s]. *)
Fixpoint read_uint (s : list byte) : Decimal.uint * list byte :=
  match s with
  | [] => (Decimal.Nil, [])
  | b :: s' =>
      match digit_of b with
      | Some d => let '(u, rest) := read_uint s' in (d u, rest)
      | None => (Decimal.Nil, s)
      end
  end.

(** A number has a digit and no leading zero. *)
Definition decode_uint (u : Decimal.uint) : option Z :=
  match u with
  | Decimal.Nil => None
  | _ => if Decimal.uint_beq (Decimal.unorm u) u
         then Some (Z.of_N (N.of_uint u)) else None
  end.

Definition hex_value (b : byte) : option N :=
  let n := Byte.to_N b in
  if (48 <=? n)%N && (n <=? 57)%N then Some (n - 48)%N
  else if (97 <=? n)%N && (n <=? 102)%N then Some (n - 87)%N
  else if (65 <=? n)%N && (n <=? 70)%N then Some (n - 55)%N
  else None.

(** One character of a string, [b] being its first byte and [s] what
    follows. Of the [\uXXXX] escapes, those of one-byte characters. *)
Definition unescape (b : byte) (s : list byte) : option (byte * list byte) :=
  if Byte.eqb b backslash then
    match s with
    | [] => None
    | e :: s' =>
        if Byte.eqb e quote then Some (quote, s')
        else if Byte.eqb e backslash then Some (backslash, s')
        else if Byte.eqb e "/" then Some ("/", s')
        else if Byte.eqb e "b" then Some (x08, s')
        else if Byte.eqb e "f" then Some (x0c, s')
        else if Byte.eqb e "n" then Some (x0a, s')
        else if Byte.eqb e "r" then Some (x0d, s')
        else if Byte.eqb e "t" then Some (x09, s')
        else if Byte.eqb e "u" then
          match s' with
          | h1 :: h2 :: h3 :: h4 :: s'' =>
              match hex_value h1, hex_value h2, hex_value h3, hex_value h4 with
              | Some 0%N, Some 0%N, Some hi, Some lo =>
                  if (hi <? 8)%N
                  then match Byte.of_N (16 * hi + lo) with
                       | Some c => Some (c, s'')
                       | None => None
                       end
                  else None
              | _, _, _, _ => None
              end
          | _ => None
          end
        else None
    end
  else if (Byte.to_N b <? 32)%N then None
  else Some (b, s).

(** The characters of a string up to its closing quote. *)
Fixpoint parse_chars (fuel : nat) (s : list byte) : option (list byte * list byte) :=
  match fuel with
  | O => None
  | S fuel' =>
      match s with
      | [] => None
      | b :: s' =>
          if Byte.eqb b quote then Some ([], s')
          else match unescape b s' with
               | Some (c, rest) =>
                   match parse_chars fuel' rest with
                   | Some (cs, rest') => Some (c :: cs, rest')
                   | None => None
                   end
               | None => None
               end
      end
  end.

Fixpoint expect (word s : list byte) : option (list byte) :=
  match word with
  | [] => Some s
  | w :: word' =>
      match s with
      | b :: s' => if Byte.eqb b w then expect word' s' else None
      | [] => None
      end
  end.

Fixpoint parse_value (fuel : nat) (s : list byte) : option (json * list byte) :=
  match fuel with
  | O => None
  | S fuel' =>
      match s with
      | [] => None
      | b :: s' =>
          if Byte.eqb b "n" then
            match expect ["u"; "l"; "l"] s' with
            | Some rest => Some (JNull, rest)
            | None => None
            end
          else if Byte.eqb b "t" then
            match expect ["r"; "u"; "e"] s' with
            | Some rest => Some (JBool true, rest)
            | None => None
            end
          else if Byte.eqb b "f" then
            match expect ["a"; "l"; "s"; "e"] s' with
            | Some rest => Some (JBool false, rest)
            | None => None
            end
          else if Byte.eqb b quote then
            match parse_chars fuel' s' with
            | Some (cs, rest) => Some (JString (string_of_list_byte cs), rest)
            | None => None
            end
          else if Byte.eqb b "[" then
            match s' with
            | c :: rest =>
                if Byte.eqb c "]" then Some (JArray [], rest)
                else match parse_elems fuel' s' with
                     | Some (l, rest) => Some (JArray l, rest)
                     | None => None
                     end
            | [] => None
            end
          else if Byte.eqb b "{" then
            match s' with
            | c :: rest =>
                if Byte.eqb c "}" then Some (JObject [], rest)
                else match parse_members fuel' s' with
                     | Some (kvs, rest) => Some (JObject kvs, rest)
                     | None => None
                     end
            | [] => None
            end
          else if Byte.eqb b "-" then
            let '(u, rest) := read_uint s' in
            match decode_uint u with
            | Some n => Some (JNumber (- n), rest)
            | None => None
            end
          else
            let '(u, rest) := read_uint s in
            match decode_uint u with
            | Some n => Some (JNumber n, rest)
            | None => None
            end
      end
  end
with parse_elems (fuel : nat) (s : list byte) : option (list json * list byte) :=
  match fuel with
  | O => None
  | S fuel' =>
      match parse_value fuel' s with
      | Some (v, b :: rest) =>
          if Byte.eqb b "]" then Some ([v], rest)
          else if Byte.eqb b "," then
            match parse_elems fuel' rest with
            | Some (l, rest') => Some (v :: l, rest')
            | None => None
            end
          else None
      | _ => None
      end
  end
with parse_members (fuel : nat) (s : list byte)
    : option (list (string * json) * list byte) :=
  match fuel with
  | O => None
  | S fuel' =>
      match s with
      | q :: s' =>
          if Byte.eqb q quote then
            match parse_chars fuel' s' with
            | Some (k, c :: s'') =>
                if Byte.eqb c ":" then
                  match parse_value fuel' s'' with
                  | Some (v, b :: rest) =>
                      if Byte.eqb b "}" then Some ([(string_of_list_byte k, v)], rest)
                      else if Byte.eqb b "," then
                        match parse_members fuel' rest with
                        | Some (kvs, rest') =>
                            Some ((string_of_list_byte k, v) :: kvs, rest')
                        | None => None
                        end
                      else None
                  | _ => None
                  end
                else None
            | _ => None
            end
          else None
      | [] => None
      end
  end.

(** A JSON text is one value and nothing after it. *)
Definition decode (s : list byte) : option json :=
  match parse_value (S (length s)) s with
  | Some (v, []) => Some v
  | _ => None
  end.

(** The object [json.Marshal] writes for an [AuditEvent]: the fields in
    declaration order under their tags, without the [omitempty] fields that
    are empty. *)
Definition object_of_event (e : AuditEvent) : json :=
  JObject
    ([("username", JString (Username e));
      ("actionString", JString (ActionString e))]%string
     ++ (if (ExtraMsg e =? "")%string then []
         else [("extraMsg", JString (ExtraMsg e))]%string)
     ++ [("epochTimestampSec", JNumber (EpochTimestampSec e));
         ("orgId", JNumber (OrgID e))]%string
     ++ (if not_nil (Metadata e) then [("metadata", Metadata e)]%string else [])).

(** [json.Unmarshal] storing one member in the struct: a member that is
    not tagged is ignored, [null] leaves the field as it is, a value of the
    wrong type is an error. *)
Definition set_field (e : AuditEvent) (k : string) (v : json) : option AuditEvent :=
  let '(mkAuditEvent u a x ts org md) := e in
  if (k =? "username")%string then
    match v with
    | JString s => Some (mkAuditEvent s a x ts org md)
    | JNull => Some e
    | _ => None
    end
  else if (k =? "actionString")%string then
    match v with
    | JString s => Some (mkAuditEvent u s x ts org md)
    | JNull => Some e
    | _ => None
    end
  else if (k =? "extraMsg")%string then
    match v with
    | JString s => Some (mkAuditEvent u a s ts org md)
    | JNull => Some e
    | _ => None
    end
  else if (k =? "epochTimestampSec")%string then
    match v with
    | JNumber n => Some (mkAuditEvent u a x n org md)
    | JNull => Some e
    | _ => None
    end
  else if (k =? "orgId")%string then
    match v with
    | JNumber n => Some (mkAuditEvent u a x ts n md)
    | JNull => Some e
    | _ => None
    end
  else if (k =? "metadata")%string then Some (mkAuditEvent u a x ts org v)
  else Some e.

Fixpoint set_fields (e : AuditEvent) (kvs : list (string * json)) : option AuditEvent :=
  match kvs with
  | [] => Some e
  | (k, v) :: kvs' =>
      match set_field e k v with
      | Some e' => set_fields e' kvs'
      | None => None
      end
  end.

(** [var event AuditEvent] *)
Definition zero_event : AuditEvent :=
  mkAuditEvent EmptyString EmptyString EmptyString 0 0 JNull.

Definition event_of_json (v : json) : option AuditEvent :=
  match v with
  | JObject kvs => set_fields zero_event kvs
  | JNull => Some zero_event
  | _ => None
  end.

Definition Marshal (v : json) : option (list byte) := Some (encode v).

Definition Unmarshal (data : list byte) : option json := decode data.

Definition MarshalEvent (e : AuditEvent) : option (list byte) :=
  Some (encode (object_of_event e)).

Definition UnmarshalEvent (data : list byte) : option AuditEvent :=
  match decode data with
  | Some v => event_of_json v
  | None => None
  end.

End JSON.

(** ** What a store holds *)

(** The lines of a file as [Scan] delivers them one after the other: the
    runs of bytes between newlines, and a last unterminated run when it is
    not empty. *)
Fixpoint split_lines (file line : list byte) : list (list byte) :=
  match file with
  | [] => if (0 <? length line)%nat then [line] else []
  | b :: file' =>
      if Byte.eqb b x0a then line :: split_lines file' []
      else split_lines file' (line ++ [b])
  end.

Definition lines (contents : list byte) : list (list byte) :=
  split_lines contents [].

(** The file made of the given lines, each followed by a newline. *)
Definition join_lines (ls : list (list byte)) : list byte :=
  flat_map (fun l => l ++ [x0a]) ls.

Definition one_line (l : list byte) : Prop := ~ In x0a l.

(** A file that is empty or ends in a newline. *)
Definition terminated (contents : list byte) : Prop :=
  contents = [] \/ last contents = Some x0a.

Section Stored.
Context `{JSONCodec}.

(** The records of a log file: its lines that parse, in file order. *)
Definition file_events (contents : list byte) : list AuditEvent :=
  omap json_UnmarshalEvent (lines contents).

(** The record [ReadAuditEvents] returns for a row. *)
Definition event_of_row (row : Row) : AuditEvent :=
  DBAuditLogger.scan_row row (default EmptyString (extra_msg row)).

(** The row [CreateAuditEvent] inserts for a record, [metadataJSON] being
    the serialized metadata. *)
Definition row_of_event (e : AuditEvent) (metadataJSON : list byte) : Row :=
  mkRow (Username e) (ActionString e) (Some (ExtraMsg e))
        (EpochTimestampSec e) (OrgID e) (Some (string_of_list_byte metadataJSON)).

End Stored.

(** The record [CreateAuditEvent] stores: a zero timestamp is replaced by
    the clock. *)
Definition new_event (username actionString extraMsg : string)
    (epochTimestampSec orgID : Z) (metadata : json) (now : Z) : AuditEvent :=
  mkAuditEvent username actionString extraMsg
    (if (epochTimestampSec =? 0)%Z then now else epochTimestampSec) orgID metadata.

(** The statement [ReadAuditEvents] sends. *)
Definition query_of (orgID startEpochSec endEpochSec : Z) : Query :=
  mkQuery orgID startEpochSec
          (if (endEpochSec >? 0)%Z then Some endEpochSec else None).

(** Rows in time order. *)
Definition ts_le (r1 r2 : Row) : Prop :=
  (epoch_timestamp_sec r1 <= epoch_timestamp_sec r2)%Z.

(** A row [rows.Scan] can store in an [AuditEvent]. *)
Definition scannable (row : Row) : Prop := is_Some (extra_msg row).

(** The filter of [DBAuditLogger.ReadAuditEvents], on records. *)
Definition db_filter (orgID startEpochSec endEpochSec : Z) (event : AuditEvent) : bool :=
  (OrgID event =? orgID)%Z &&
  (EpochTimestampSec event >=? startEpochSec)%Z &&
  (negb (endEpochSec >? 0)%Z || (EpochTimestampSec event <=? endEpochSec)%Z).

(** The state a backend needs to answer: a log file that can be opened and
    is [terminated], or a database that answers and whose rows are
    [scannable]. *)
Definition store_ok (logger : AuditLogger) (os : OS) : Prop :=
  match logger with
  | File_AuditLogger (Some l) =>
      exists contents,
        os_Open (FileAuditLogger.filePath l) os = Some contents /\
        terminated contents
  | DB_AuditLogger (Some l) =>
      (DBAuditLogger.db l ∉ db_unavailable os) /\
      (exists table,
         databases os !! DBAuditLogger.db l = Some table /\
         Forall scannable table)
  | _ => False
  end.

(** The records a backend holds, in the order they were stored. *)
Definition stored `{JSONCodec} (logger : AuditLogger) (os : OS) : list AuditEvent :=
  match logger with
  | File_AuditLogger (Some l) =>
      match os_Open (FileAuditLogger.filePath l) os with
      | Some contents => file_events contents
      | None => []
      end
  | DB_AuditLogger (Some l) =>
      match databases os !! DBAuditLogger.db l with
      | Some table => event_of_row <$> table
      | None => []
      end
  | _ => []
  end.

(** ** Notions the statements use *)

(** The filter of [ReadAuditEvents] as a property of a record: the file
    store has no upper bound when [endEpochSec] is 0, the relational store
    when it is not positive. *)
Definition matches_filter (logger : AuditLogger)
    (orgID startEpochSec endEpochSec : Z) (e : AuditEvent) : Prop :=
  OrgID e = orgID /\
  (startEpochSec <= EpochTimestampSec e)%Z /\
  match logger with
  | DB_AuditLogger _ => (endEpochSec <= 0)%Z \/ (EpochTimestampSec e <= endEpochSec)%Z
  | _ => endEpochSec = 0%Z \/ (EpochTimestampSec e <= endEpochSec)%Z
  end.

(** The timestamps of a sequence of records, and of those of one tenant. *)
Definition timestamps (events : list AuditEvent) : list Z :=
  EpochTimestampSec <$> events.

Definition of_tenant (orgID : Z) (events : list AuditEvent) : list AuditEvent :=
  List.filter (fun e => (OrgID e =? orgID)%Z) events.

(** One call of [CreateAuditEvent] with the clock reading it sees. *)
Record call : Type := mkCall {
  c_username : string;
  c_actionString : string;
  c_extraMsg : string;
  c_epochTimestampSec : Z;
  c_orgID : Z;
  c_metadata : json;
  c_now : Z
}.

Section Runs.
Context `{JSONCodec}.

(** The world after a call on [logger], whatever error it returned. *)
Definition create_step (logger : AuditLogger) (os : OS) (c : call) : OS :=
  match call_CreateAuditEvent logger (c_username c) (c_actionString c)
          (c_extraMsg c) (c_epochTimestampSec c) (c_orgID c) (c_metadata c)
          (c_now c) os with
  | Returns (_, os') => os'
  | Panics => os
  end.

Definition create_all (logger : AuditLogger) (calls : list call) (os : OS) : OS :=
  foldl (create_step logger) os calls.

End Runs.

(** ** Concrete data for the examples *)

Definition file_logger : AuditLogger :=
  File_AuditLogger (Some (FileAuditLogger.mk "audit.log")).

Definition db_logger : AuditLogger :=
  DB_AuditLogger (Some (DBAuditLogger.mk "audit.db")).

(** An empty log file and an empty database, and a directory in which no
    file can be created. *)
Definition os0 : OS :=
  mkOS {["audit.log" := []]} ∅ {["/missing/audit.log"]} false
       {["audit.db" := []]} {["/missing/audit.db"]}.

(** The scenario of the package tests: three records, two tenants. *)
Definition scenario : list call :=
  [mkCall "alice" "User logged in" "Login from 192.168.1.1" 1700000000 123 JNull
          1700000500;
   mkCall "bob" "Dashboard created" "Created dashboard" 1700000060 123
          (JObject [("dashboardId", JString "dash-123")]) 1700000500;
   mkCall "charlie" "Index deleted" "Deleted index" 1700000120 456 JNull 1700000500].

(** Two records of one tenant, the later one first. *)
Definition unordered : list call :=
  [mkCall "bob" "Dashboard created" "" 200 1 JNull 500;
   mkCall "alice" "User logged in" "" 100 1 JNull 500].

(** Two records of the scenario. *)
Definition alice : AuditEvent :=
  mkAuditEvent "alice" "User logged in" "Login from 192.168.1.1" 1700000000 123 JNull.

(** The process before any call of [InitAuditLogger]. *)
Definition st0 : State := mkState nil_AuditLogger os0.

(** An action mapping with an exact entry and a wildcard entry that overlap. *)
Definition mapping : gmap string string :=
  <["GET /users" := "Users listed"]> (<["GET /users*" := "User read"]> ∅).

Definition bob : AuditEvent :=
  mkAuditEvent "bob" "Dashboard created" "Created dashboard" 1700000060 123
               (JObject [("dashboardId", JString "dash-123")]).




(** A request whose context holds the tenant id as a string. *)
Definition request : Request :=
  mkRequest "GET" "/users" "/users?page=2" "curl/8.0" "10.0.0.7:5123"
            {[AuditOrgIDKey := ctx_string "123"]}.

(** ** middleware.go: the response wrapper *)

(** [type responseWriter struct]: the status codes the embedded
    [http.ResponseWriter] has received, and [statusCode]. *)
Record responseWriter : Type := mkResponseWriter {
  ResponseWriter : list Z;
  statusCode : Z
}.

(** [&responseWriter{ResponseWriter: w, statusCode: 200}] *)
Definition new_responseWriter (w : list Z) : responseWriter :=
  mkResponseWriter w 200.

Definition WriteHeader (rw : responseWriter) (code : Z) : responseWriter :=
  mkResponseWriter (ResponseWriter rw ++ [code]) code.

(** ** main.go: the example server *)

(** The labels of actions.go the handlers use. *)
Definition ActionUserLogin : string := "User logged in".
Definition ActionUserLogout : string := "User logged out".
Definition ActionIndexDelete : string := "Index deleted".
Definition ActionDashboardCreate : string := "Dashboard created".

(** What a handler has sent on its [http.ResponseWriter]: the status code,
    once the header is written, and the body. *)
Record HTTPResponse : Type := mkHTTPResponse {
  status : option Z;
  body : string
}.

Definition no_response : HTTPResponse := mkHTTPResponse None EmptyString.

(** [w.Write(data)]: writes the header with status 200 if none was written. *)
Definition w_Write (w : HTTPResponse) (data : string) : HTTPResponse :=
  mkHTTPResponse (match status w with
                  | Some code => Some code
                  | None => Some 200%Z
                  end)
                 (body w +:+ data).

(** [http.Error(w, msg, code)]: the header with [code], then [msg] and a
    newline. *)
Definition http_Error (w : HTTPResponse) (msg : string) (code : Z) : HTTPResponse :=
  mkHTTPResponse (match status w with
                  | Some code' => Some code'
                  | None => Some code
                  end)
                 (body w +:+ msg +:+ String "010"%char EmptyString).

Definition StatusMethodNotAllowed : Z := 405.
Definition MethodPost : string := "POST".

(** [r.FormValue(key)] on the parsed form of the request. *)
Definition FormValue (form : gmap string string) (key : string) : string :=
  default EmptyString (form !! key).

Section Handlers.
Context `{JSONCodec}.

(** In the handlers [now] is the handler's reading of the clock,
    [time.Now().Unix()], and [clock] the reading the store takes when the
    handler's is 0. *)

(** The end of every handler: [log.Printf] of the error, if any, which is
    kept as the list of errors logged, and the reply. *)
Definition reply (w : HTTPResponse) (text : string)
    (created : outcome (option error * State))
    : outcome (HTTPResponse * list error * State) :=
  match created with
  | Returns (err, st) =>
      Returns (w_Write w text,
               match err with
               | Some e => [e]
               | None => []
               end, st)
  | Panics => Panics
  end.

Definition handleLogin (r : Request) (form : gmap string string)
    (now clock : Z) (w : HTTPResponse) (st : State) : outcome (HTTPResponse * list error * State) :=
  if negb (Method r =? MethodPost)%string then
    Returns (http_Error w "Method not allowed" StatusMethodNotAllowed, [], st)
  else
    let username := FormValue form "username" in
    let username := if (username =? "")%string then "unknown" else username in
    reply w "Login successful"
      (CreateAuditEvent username ActionUserLogin ("Login from " +:+ RemoteAddr r)
         now 123
         (JObject [("ipAddress", JString (RemoteAddr r));
                   ("userAgent", JString (UserAgent r))])
         clock st).

Definition handleLogout (r : Request) (form : gmap string string)
    (now clock : Z) (w : HTTPResponse) (st : State) : outcome (HTTPResponse * list error * State) :=
  let username := FormValue form "username" in
  let username := if (username =? "")%string then "unknown" else username in
  reply w "Logout successful"
    (CreateAuditEvent username ActionUserLogout "User logged out" now 123 JNull
       clock st).

Definition handleDeleteIndex (r : Request) (form : gmap string string)
    (now clock : Z) (w : HTTPResponse) (st : State) : outcome (HTTPResponse * list error * State) :=
  if negb (Method r =? MethodPost)%string then
    Returns (http_Error w "Method not allowed" StatusMethodNotAllowed, [], st)
  else
    let username := FormValue form "username" in
    let indexName := FormValue form "indexName" in
    reply w ("Index '" +:+ indexName +:+ "' deleted")
      (CreateAuditEvent username ActionIndexDelete
         ("Deleted index '" +:+ indexName +:+ "'") now 123
         (JObject [("indexName", JString indexName)])
         clock st).

(** [idTime] is the clock reading that names the dashboard. *)
Definition handleCreateDashboard (idTime : Z) (r : Request)
    (form : gmap string string) (now clock : Z) (w : HTTPResponse)
    (st : State)
    : outcome (HTTPResponse * list error * State) :=
  if negb (Method r =? MethodPost)%string then
    Returns (http_Error w "Method not allowed" StatusMethodNotAllowed, [], st)
  else
    let username := FormValue form "username" in
    let dashboardName := FormValue form "dashboardName" in
    let dashboardID := "dashboard_" +:+ Sprintf_d idTime in
    reply w ("Dashboard '" +:+ dashboardName +:+ "' created with ID " +:+ dashboardID)
      (CreateAuditEvent username ActionDashboardCreate
         ("Created dashboard '" +:+ dashboardName +:+ "'") now 123
         (JObject [("dashboardId", JString dashboardID);
                   ("dashboardName", JString dashboardName)])
         clock st).

End Handlers.

(** The call of [InitAuditLogger] in [main]; an error ends the process. *)
Definition main_InitAuditLogger (st : State) : option error * State :=
  InitAuditLogger FileLoggerType {["filePath" := "audit.log"]} st.

(** ** Notions the further properties use *)

(** The number of spaces of a pattern. *)
Fixpoint count_spaces (s : string) : nat :=
  match s with
  | EmptyString => 0
  | String c s' => (if Ascii.eqb c " " then 1 else 0) + count_spaces s'
  end.

(** The four handlers [main] registers. *)
Definition handlers `{JSONCodec} (idTime : Z)
    : list (Request -> gmap string string -> Z -> Z -> HTTPResponse -> State ->
            outcome (HTTPResponse * list error * State)) :=
  [handleLogin; handleLogout; handleDeleteIndex; handleCreateDashboard idTime].

(** The records of a time range. *)
Definition in_range (startEpochSec endEpochSec : Z) (event : AuditEvent) : bool :=
  (startEpochSec <=? EpochTimestampSec event)%Z &&
  (EpochTimestampSec event <=? endEpochSec)%Z.

(** ** The codec reads back what it writes *)

Section json_induction.
Variable P : json -> Prop.
Hypothesis HNull : P JNull.
Hypothesis HBool : forall b, P (JBool b).
Hypothesis HNumber : forall n, P (JNumber n).
Hypothesis HString : forall s, P (JString s).
Hypothesis HArray : forall l, Forall P l -> P (JArray l).
Hypothesis HObject : forall kvs, Forall (fun kv => P (snd kv)) kvs -> P (JObject kvs).

Fixpoint json_ind (v : json) : P v :=
  match v with
  | JNull => HNull
  | JBool b => HBool b
  | JNumber n => HNumber n
  | JString s => HString s
  | JArray l =>
      HArray l ((fix go (l : list json) : Forall P l :=
                   match l with
                   | [] => @List.Forall_nil _ P
                   | v :: l' => @List.Forall_cons _ P v l' (json_ind v) (go l')
                   end) l)
  | JObject kvs =>
      HObject kvs ((fix go (kvs : list (string * json))
                      : Forall (fun kv => P (snd kv)) kvs :=
                      match kvs with
                      | [] => @List.Forall_nil _ _
                      | kv :: kvs' =>
                          @List.Forall_cons _ (fun kv => P (snd kv)) kv kvs' (json_ind (snd kv)) (go kvs')
                      end) kvs)
  end.
End json_induction.

Module JSONFacts.
Import JSON.
#[local] Open Scope byte_scope.

Definition no_digit_head (s : list byte) : Prop :=
  match s with
  | [] => True
  | b :: _ => digit_of b = None
  end.

Lemma read_uint_no_digit s : no_digit_head s -> read_uint s = (Decimal.Nil, s).
Proof. destruct s as [|b s]; simpl; [done|]. by intros ->. Qed.

Lemma read_uint_bytes_of_uint u rest :
  no_digit_head rest -> read_uint (bytes_of_uint u ++ rest) = (u, rest).
Proof.
  intros Hrest. induction u; simpl; rewrite ?IHu; auto using read_uint_no_digit.
Qed.

Lemma to_uint_nonnil n : N.to_uint n <> Decimal.Nil.
Proof. destruct n; [done|]. apply DecimalPos.Unsigned.to_uint_nonnil. Qed.

Lemma decode_uint_to_uint n : decode_uint (N.to_uint n) = Some (Z.of_N n).
Proof.
  unfold decode_uint.
  assert (Hn : Decimal.unorm (N.to_uint n) = N.to_uint n).
  { rewrite <- DecimalN.Unsigned.to_of. by rewrite DecimalN.Unsigned.of_to. }
  rewrite Hn, (Decimal.internal_uint_dec_lb _ _ eq_refl), DecimalN.Unsigned.of_to.
  pose proof (to_uint_nonnil n). by destruct (N.to_uint n).
Qed.

Lemma bytes_of_uint_head u :
  u <> Decimal.Nil ->
  exists b s, bytes_of_uint u = b :: s /\ is_Some (digit_of b).
Proof. destruct u; [done|..]; intros _; simpl; eauto. Qed.

(** A value that starts with a digit or a minus sign is a number. *)
Lemma parse_value_digit fuel b s :
  is_Some (digit_of b) ->
  parse_value (S fuel) (b :: s) =
    let '(u, rest) := read_uint (b :: s) in
    match decode_uint u with
    | Some n => Some (JNumber n, rest)
    | None => None
    end.
Proof. destruct b; intros [d Hd]; try discriminate Hd; reflexivity. Qed.

Lemma parse_value_minus fuel s :
  parse_value (S fuel) ("-" :: s) =
    let '(u, rest) := read_uint s in
    match decode_uint u with
    | Some n => Some (JNumber (- n), rest)
    | None => None
    end.
Proof. reflexivity. Qed.

Lemma parse_value_encode_int fuel n rest :
  no_digit_head rest ->
  parse_value (S fuel) (encode_int n ++ rest) = Some (JNumber n, rest).
Proof.
  intros Hrest. unfold encode_int. destruct (Z.ltb_spec n 0).
  - simpl app. rewrite parse_value_minus.
    rewrite read_uint_bytes_of_uint, decode_uint_to_uint by done.
    do 3 f_equal. lia.
  - destruct (bytes_of_uint_head (N.to_uint (Z.abs_N n))) as (b & s & Hb & Hd);
      [apply to_uint_nonnil|].
    rewrite Hb. simpl app. rewrite parse_value_digit by done.
    change (b :: s ++ rest) with ((b :: s) ++ rest). rewrite <- Hb.
    rewrite read_uint_bytes_of_uint, decode_uint_to_uint by done.
    do 3 f_equal. lia.
Qed.

Lemma parse_chars_escape_byte fuel b rest :
  parse_chars (S fuel) (escape_byte b ++ rest) =
    match parse_chars fuel rest with
    | Some (cs, rest') => Some (b :: cs, rest')
    | None => None
    end.
Proof. destruct b; reflexivity. Qed.

Lemma parse_chars_escape bs rest fuel :
  length bs < fuel ->
  parse_chars fuel (flat_map escape_byte bs ++ quote :: rest) = Some (bs, rest).
Proof.
  revert fuel. induction bs as [|b bs IH]; intros [|fuel] Hfuel; simpl in Hfuel;
    try lia; [done|].
  simpl flat_map. rewrite <- app_assoc, parse_chars_escape_byte, IH by lia. done.
Qed.

Lemma escape_byte_length b : 1 <= length (escape_byte b).
Proof. destruct b; simpl; lia. Qed.

Lemma escape_length bs : length bs <= length (flat_map escape_byte bs).
Proof.
  induction bs as [|b bs IH]; simpl; [lia|].
  rewrite length_app. pose proof (escape_byte_length b). lia.
Qed.

Lemma encode_bytes_length bs : 2 + length bs <= length (encode_bytes bs).
Proof.
  unfold encode_bytes. simpl. rewrite length_app. simpl.
  pose proof (escape_length bs). lia.
Qed.

Lemma parse_chars_encode_bytes bs rest fuel :
  length (encode_bytes bs) <= S fuel ->
  exists s, encode_bytes bs ++ rest = quote :: s /\
            parse_chars fuel s = Some (bs, rest).
Proof.
  intros Hfuel. pose proof (encode_bytes_length bs).
  exists (flat_map escape_byte bs ++ quote :: rest). split.
  - unfold encode_bytes. simpl. by rewrite <- app_assoc.
  - apply parse_chars_escape. lia.
Qed.

Lemma parse_value_quote fuel s :
  parse_value (S fuel) (quote :: s) =
    match parse_chars fuel s with
    | Some (cs, rest) => Some (JString (string_of_list_byte cs), rest)
    | None => None
    end.
Proof. reflexivity. Qed.

Lemma parse_value_encode_string s rest fuel :
  length (encode_string s) <= fuel ->
  parse_value fuel (encode_string s ++ rest) = Some (JString s, rest).
Proof.
  unfold encode_string. intros Hfuel. destruct fuel as [|fuel].
  { pose proof (encode_bytes_length (list_byte_of_string s)). lia. }
  destruct (parse_chars_encode_bytes (list_byte_of_string s) rest fuel Hfuel)
    as (t & -> & Ht).
  by rewrite parse_value_quote, Ht, string_of_list_byte_of_string.
Qed.

(** No value starts with a closing bracket, a comma or a colon. *)
Definition value_head (b : byte) : Prop :=
  Byte.eqb b "]" = false /\ Byte.eqb b "}" = false /\
            Byte.eqb b "," = false /\ Byte.eqb b ":" = false.

Lemma digit_value_head b : is_Some (digit_of b) -> value_head b.
Proof. destruct b; intros [d Hd]; try discriminate Hd; by repeat split. Qed.

Lemma encode_head v : exists b s, encode v = b :: s /\ value_head b.
Proof.
  destruct v as [|[]|n|s|l|kvs]; simpl; try by (do 2 eexists; split; [done|by repeat split]).
  unfold encode_int. destruct (n <? 0)%Z.
  - do 2 eexists; split; [done|by repeat split].
  - destruct (bytes_of_uint_head (N.to_uint (Z.abs_N n))) as (b & s & Hb & Hd);
      [apply to_uint_nonnil|].
    exists b, s. eauto using digit_value_head.
Qed.

Lemma parse_value_array fuel c s :
  parse_value (S fuel) ("[" :: c :: s) =
    if Byte.eqb c "]" then Some (JArray [], s)
    else match parse_elems fuel (c :: s) with
         | Some (l, rest) => Some (JArray l, rest)
         | None => None
         end.
Proof. reflexivity. Qed.

Lemma parse_value_object fuel c s :
  parse_value (S fuel) ("{" :: c :: s) =
    if Byte.eqb c "}" then Some (JObject [], s)
    else match parse_members fuel (c :: s) with
         | Some (kvs, rest) => Some (JObject kvs, rest)
         | None => None
         end.
Proof. reflexivity. Qed.

(** What the main statement says of one value. *)
Definition reads_back (v : json) : Prop :=
  forall rest fuel,
    no_digit_head rest -> length (encode v) <= fuel ->
    parse_value fuel (encode v ++ rest) = Some (v, rest).

Lemma encode_list_cons {A} (enc : A -> list byte) close x l :
  encode_list enc close (x :: l) =
    enc x ++ match l with
             | [] => [close]
             | _ :: _ => "," :: encode_list enc close l
             end.
Proof. reflexivity. Qed.

Lemma parse_elems_encode l :
  Forall reads_back l -> l <> [] ->
  forall rest fuel,
    length (encode_list encode "]" l) <= fuel ->
    parse_elems fuel (encode_list encode "]" l ++ rest) = Some (l, rest).
Proof.
  induction 1 as [|v l Hv Hl IH]; [done|]. intros _ rest fuel Hfuel.
  rewrite encode_list_cons in *. rewrite length_app in Hfuel.
  destruct fuel as [|fuel]; [destruct l; cbn [length] in Hfuel; lia|].
  rewrite <- app_assoc. cbn [parse_elems]. destruct l as [|v' l].
  - cbn [length] in Hfuel. cbn [app]. rewrite Hv by (done || lia). done.
  - set (tl := encode_list encode "]" (v' :: l)) in *.
    cbn [length] in Hfuel. cbn [app]. rewrite Hv by (done || lia).
    change (Byte.eqb "," "]") with false. change (Byte.eqb "," ",") with true.
    cbv iota. rewrite IH by (done || lia). done.
Qed.

Lemma parse_members_encode kvs :
  let enc := fun kv : string * json => encode_string (fst kv) ++ ":" :: encode (snd kv) in
  Forall (fun kv => reads_back (snd kv)) kvs -> kvs <> [] ->
  forall rest fuel,
    length (encode_list enc "}" kvs) <= fuel ->
    parse_members fuel (encode_list enc "}" kvs ++ rest) = Some (kvs, rest).
Proof.
  intros enc. induction 1 as [|[k v] kvs Hv Hkvs IH]; [done|].
  intros _ rest fuel Hfuel.
  rewrite encode_list_cons in *. unfold enc at 1 in Hfuel. unfold enc at 1.
  cbn [fst snd] in *. rewrite !length_app in Hfuel. cbn [length] in Hfuel.
  destruct fuel as [|fuel]; [lia|].
  rewrite <- !app_assoc. rewrite <- app_comm_cons.
  set (tl := match kvs with
             | [] => ["}"]
             | _ :: _ => "," :: encode_list enc "}" kvs
             end) in *.
  destruct (parse_chars_encode_bytes (list_byte_of_string k)
              (":" :: encode v ++ tl ++ rest) fuel) as (t & Ht & Hparse).
  { unfold encode_string in Hfuel. lia. }
  unfold encode_string. rewrite Ht. cbn [parse_members].
  change (Byte.eqb quote quote) with true. cbv iota. rewrite Hparse.
  change (Byte.eqb ":" ":") with true. cbv iota.
  rewrite string_of_list_byte_of_string.
  subst tl. destruct kvs as [|kv kvs].
  - cbn [length] in Hfuel. cbn [app]. rewrite Hv by (done || lia). done.
  - set (tl := encode_list enc "}" (kv :: kvs)) in *.
    cbn [length] in Hfuel. cbn [app]. rewrite Hv by (done || lia).
    change (Byte.eqb "," "}") with false. change (Byte.eqb "," ",") with true.
    cbv iota. rewrite IH by (done || lia). done.
Qed.

Lemma encode_array l : encode (JArray l) = "[" :: encode_list encode "]" l.
Proof. reflexivity. Qed.

Lemma encode_object kvs :
  encode (JObject kvs) =
    "{" :: encode_list (fun kv => encode_string (fst kv) ++ ":" :: encode (snd kv))
                       "}" kvs.
Proof. reflexivity. Qed.

Lemma parse_value_encode v : reads_back v.
Proof.
  induction v as [|b|n|s|l IH|kvs IH] using json_ind; intros rest fuel Hrest Hfuel.
  - destruct fuel as [|fuel]; [simpl in Hfuel; lia|]. done.
  - destruct fuel as [|fuel]; [destruct b; simpl in Hfuel; lia|]. by destruct b.
  - destruct fuel as [|fuel].
    { destruct (encode_head (JNumber n)) as (b & s & Hb & _).
      rewrite Hb in Hfuel. simpl in Hfuel. lia. }
    by apply parse_value_encode_int.
  - by apply parse_value_encode_string.
  - rewrite encode_array in *. cbn [length] in Hfuel.
    destruct fuel as [|fuel]; [lia|]. destruct l as [|v l]; [done|].
    destruct (encode_head v) as (b & s & Hb & Hhead & _).
    assert (Hs : exists t, encode_list encode "]" (v :: l) ++ rest = b :: t).
    { rewrite encode_list_cons, Hb. simpl. eauto. }
    destruct Hs as [t Ht]. rewrite <- app_comm_cons, Ht, parse_value_array, Hhead, <- Ht.
    rewrite parse_elems_encode; [done|done|done|exact (le_S_n _ _ Hfuel)].
  - rewrite encode_object in *. cbn [length] in Hfuel.
    destruct fuel as [|fuel]; [lia|]. destruct kvs as [|[k v] kvs]; [done|].
    set (enc := fun kv : string * json => encode_string (fst kv) ++ ":" :: encode (snd kv)) in *.
    assert (Hs : exists t, encode_list enc "}" ((k, v) :: kvs) ++ rest = quote :: t).
    { rewrite encode_list_cons. unfold enc at 1, encode_string, encode_bytes.
      simpl. eauto. }
    destruct Hs as [t Ht]. rewrite <- app_comm_cons, Ht, parse_value_object.
    change (Byte.eqb quote "}") with false. cbv iota. rewrite <- Ht.
    rewrite (parse_members_encode ((k, v) :: kvs));
      [done|done|done|exact (le_S_n _ _ Hfuel)].
Qed.

Lemma decode_encode v : decode (encode v) = Some v.
Proof.
  unfold decode. rewrite <- (app_nil_r (encode v)) at 2.
  rewrite parse_value_encode; [done|done|lia].
Qed.

End JSONFacts.

Module CodecFacts.
Import JSON JSONFacts.
#[local] Open Scope byte_scope.

Lemma event_of_json_object_of_event e : event_of_json (object_of_event e) = Some e.
Proof.
  destruct e as [u a x ts org md]. unfold object_of_event, event_of_json.
  cbn [Username ActionString ExtraMsg EpochTimestampSec OrgID Metadata].
  destruct (String.eqb_spec x EmptyString) as [->|Hx]; destruct md; reflexivity.
Qed.

(** The bytes of a serialized value: none is a newline. *)
Definition no_newline (s : list byte) : bool :=
  forallb (fun c => negb (Byte.eqb c x0a)) s.

Lemma no_newline_app s t : no_newline (s ++ t) = no_newline s && no_newline t.
Proof. apply forallb_app. Qed.

Lemma no_newline_one_line s : no_newline s = true -> one_line s.
Proof.
  unfold no_newline, one_line. rewrite forallb_forall. intros Hs Hin.
  by specialize (Hs _ Hin).
Qed.

Lemma no_newline_escape_byte b : no_newline (escape_byte b) = true.
Proof. destruct b; reflexivity. Qed.

Lemma no_newline_encode_bytes bs : no_newline (encode_bytes bs) = true.
Proof.
  unfold encode_bytes. cbn [no_newline forallb]. change (forallb _ ?s) with (no_newline s).
  rewrite no_newline_app. simpl. rewrite andb_true_r.
  induction bs as [|b bs IH]; [done|]. simpl flat_map.
  by rewrite no_newline_app, no_newline_escape_byte, IH.
Qed.

Lemma no_newline_bytes_of_uint u : no_newline (bytes_of_uint u) = true.
Proof. induction u; simpl; auto. Qed.

Lemma no_newline_encode_list {A} (enc : A -> list byte) (close : byte) l :
  Byte.eqb close x0a = false ->
  Forall (fun x => no_newline (enc x) = true) l ->
  no_newline (encode_list enc close l) = true.
Proof.
  intros Hclose. induction 1 as [|x l Hx Hl IH].
  - simpl. by rewrite Hclose.
  - rewrite encode_list_cons, no_newline_app, Hx. destruct l; simpl in *.
    + by rewrite Hclose.
    + done.
Qed.

Lemma no_newline_encode v : no_newline (encode v) = true.
Proof.
  induction v as [|b|n|s|l IH|kvs IH] using json_ind.
  - done.
  - by destruct b.
  - simpl. unfold encode_int. destruct (n <? 0)%Z; simpl;
      apply no_newline_bytes_of_uint.
  - apply no_newline_encode_bytes.
  - rewrite encode_array. simpl. by apply no_newline_encode_list.
  - rewrite encode_object. simpl. apply no_newline_encode_list; [done|].
    eapply Forall_impl; [exact IH|]. intros [k v] Hv. cbn [fst snd] in *.
    change (no_newline (encode_string k ++ ":" :: encode v) = true).
    rewrite no_newline_app. unfold encode_string.
    rewrite no_newline_encode_bytes. cbn [no_newline forallb andb].
    exact Hv.
Qed.

Lemma encode_nonempty v : encode v <> [].
Proof. destruct (encode_head v) as (b & s & -> & _). done. Qed.

End CodecFacts.

(** The codec of module [JSON] meets the contract. *)
Definition Go_json : JSONCodec.
Proof.
  refine {| json_Marshal := JSON.Marshal;
            json_Unmarshal := JSON.Unmarshal;
            json_MarshalEvent := JSON.MarshalEvent;
            json_UnmarshalEvent := JSON.UnmarshalEvent |}.
  - intros v b Hb.
    assert (b = JSON.encode v) as -> by (unfold JSON.Marshal in Hb; congruence).
    apply JSONFacts.decode_encode.
  - intros v b Hb.
    assert (b = JSON.encode v) as -> by (unfold JSON.Marshal in Hb; congruence).
    apply CodecFacts.encode_nonempty.
  - intros e b Hb.
    assert (b = JSON.encode (JSON.object_of_event e)) as ->
      by (unfold JSON.MarshalEvent in Hb; congruence).
    unfold JSON.UnmarshalEvent. rewrite JSONFacts.decode_encode.
    apply CodecFacts.event_of_json_object_of_event.
  - intros e b Hb.
    assert (b = JSON.encode (JSON.object_of_event e)) as ->
      by (unfold JSON.MarshalEvent in Hb; congruence).
    apply CodecFacts.no_newline_one_line, CodecFacts.no_newline_encode.
  - intros e. split; [|by eexists]. intros _. right. by eexists.
Defined.

(** ** The scanner and the log file *)

Lemma Scan_loop_split file line :
  match Scan_loop file line with
  | (Some l, file') =>
      split_lines file line = l :: split_lines file' [] /\
      (length file' < length file \/ (file = [] /\ file' = [] /\ line <> []))
  | (None, file') => split_lines file line = []
  end.
Proof.
  revert line. induction file as [|b file IH]; intros line; simpl.
  - destruct line; simpl; [done|]. split; [done|]. right. done.
  - destruct (Byte.eqb b x0a).
    + split; [done|]. left. lia.
    + specialize (IH (line ++ [b])).
      destruct (Scan_loop file (line ++ [b])) as [[l|] file']; [|done].
      destruct IH as [-> [Hlt|(-> & -> & _)]]; (split; [done|]); left; simpl; lia.
Qed.

Lemma split_lines_line l acc rest :
  one_line l ->
  split_lines (l ++ x0a :: rest) acc = (acc ++ l) :: split_lines rest [].
Proof.
  revert acc. induction l as [|b l IH]; intros acc Hl; simpl.
  - by rewrite app_nil_r.
  - destruct (Byte.eqb b x0a) eqn:Hb.
    + apply Byte.byte_dec_bl in Hb as ->. destruct Hl. by left.
    + rewrite IH, <- app_assoc; [done|]. intros Hin. apply Hl. by right.
Qed.



Lemma split_lines_append file acc l :
  one_line l ->
  (file = [] /\ acc = []) \/ last file = Some x0a ->
  split_lines (file ++ l ++ [x0a]) acc = split_lines file acc ++ [l].
Proof.
  intros Hl. revert acc. induction file as [|b file IH]; intros acc Hfile.
  - destruct Hfile as [[_ ->]|Hlast]; [|done]. simpl app.
    by rewrite split_lines_line.
  - destruct Hfile as [[Hnil _]|Hlast]; [done|]. simpl.
    destruct (Byte.eqb b x0a) eqn:Hb.
    + rewrite IH; [done|]. destruct file; [by left|by right].
    + rewrite IH; [done|]. right. destruct file; [|done].
      simpl in Hlast. injection Hlast as ->. by rewrite Byte.byte_dec_lb in Hb.
Qed.

Lemma lines_append contents l :
  terminated contents -> one_line l ->
  lines (contents ++ l ++ [x0a]) = lines contents ++ [l].
Proof.
  intros [->|Hlast] Hl; apply split_lines_append; auto.
Qed.

Lemma terminated_append contents l : terminated (contents ++ l ++ [x0a]).
Proof. right. by rewrite !app_assoc, last_snoc. Qed.

Lemma terminated_join ls : terminated (join_lines ls).
Proof.
  induction ls as [|l ls IH] using rev_ind; [by left|].
  unfold join_lines. rewrite flat_map_app. simpl. rewrite app_nil_r.
  apply terminated_append.
Qed.

Section FileFacts.
Context `{JSONCodec}.

Lemma scan_events_spec orgID startEpochSec endEpochSec fuel scanner events :
  length (file scanner) < fuel ->
  exists scanner',
    FileAuditLogger.scan_events fuel orgID startEpochSec endEpochSec scanner events =
      (events ++ List.filter (file_filter orgID startEpochSec endEpochSec)
                             (file_events (file scanner)), scanner') /\
    Err scanner' = Err scanner.
Proof.
  revert scanner events. induction fuel as [|fuel IH]; intros scanner events Hfuel;
    [lia|].
  simpl. unfold Scan, file_events, lines.
  pose proof (Scan_loop_split (file scanner) []) as Hscan.
  destruct (Scan_loop (file scanner) []) as [[l|] file'].
  - destruct Hscan as [-> Hlen].
    assert (length file' < fuel) by (destruct Hlen as [?|(_ & _ & ?)]; [lia|done]).
    cbn [Bytes current omap list_omap].
    destruct (json_UnmarshalEvent l) as [event|].
    + cbn [List.filter].
      destruct (file_filter orgID startEpochSec endEpochSec event).
      * edestruct (IH (mkJSONScanner file' (err scanner) l) (events ++ [event]))
          as (scanner' & -> & Herr); [done|].
        exists scanner'. by rewrite <- app_assoc.
      * by apply (IH (mkJSONScanner file' (err scanner) l) events).
    + by apply (IH (mkJSONScanner file' (err scanner) l) events).
  - rewrite Hscan. simpl. rewrite app_nil_r. eauto.
Qed.

Lemma File_ReadAuditEvents_spec l orgID startEpochSec endEpochSec os contents :
  os_Open (FileAuditLogger.filePath l) os = Some contents ->
  FileAuditLogger.ReadAuditEvents l orgID startEpochSec endEpochSec os =
    (List.filter (file_filter orgID startEpochSec endEpochSec) (file_events contents),
     None).
Proof.
  intros Hopen. unfold FileAuditLogger.ReadAuditEvents. rewrite Hopen.
  destruct (scan_events_spec orgID startEpochSec endEpochSec (S (length contents))
              (NewJSONScanner contents) []) as (scanner' & -> & Herr).
  { simpl. lia. }
  rewrite Herr. done.
Qed.

Lemma file_events_append contents e eventJSON :
  terminated contents ->
  json_MarshalEvent e = Some eventJSON ->
  file_events (contents ++ eventJSON ++ [x0a]) = file_events contents ++ [e].
Proof.
  intros Hcontents He. unfold file_events.
  rewrite lines_append; [|done|exact (MarshalEvent_one_line _ _ He)].
  rewrite omap_app. simpl. by rewrite (UnmarshalEvent_MarshalEvent _ _ He).
Qed.

Lemma os_Open_set_files name name' contents os :
  os_Open name (set_files (<[name' := contents]> (files os)) os) =
    if decide (name ∈ stat_errors os) then None
    else if decide (name' = name) then Some contents else files os !! name.
Proof.
  unfold os_Open. simpl. destruct (decide (name ∈ stat_errors os)); [done|].
  by rewrite lookup_insert.
Qed.

Lemma File_CreateAuditEvent_ok l username actionString extraMsg epochTimestampSec
    orgID metadata now os os' :
  FileAuditLogger.CreateAuditEvent l username actionString extraMsg
    epochTimestampSec orgID metadata now os = (None, os') ->
  exists contents eventJSON,
    os_Open (FileAuditLogger.filePath l) os = Some contents /\
    json_MarshalEvent (new_event username actionString extraMsg epochTimestampSec
                                 orgID metadata now) = Some eventJSON /\
    os_Open (FileAuditLogger.filePath l) os' =
      Some (contents ++ eventJSON ++ [x0a]) /\
    databases os' = databases os /\ db_unavailable os' = db_unavailable os.
Proof.
  unfold FileAuditLogger.CreateAuditEvent, new_event.
  destruct (json_MarshalEvent _) as [eventJSON|]; [|done].
  destruct (os_Open _ os) as [contents|] eqn:Hopen; [|done].
  unfold file_Write. destruct (disk_full os); [done|].
  unfold os_Open in Hopen.
  destruct (decide (FileAuditLogger.filePath l ∈ stat_errors os)) as [|Hstat]; [done|].
  rewrite Hopen. intros [= <-]. exists contents, eventJSON.
  rewrite os_Open_set_files. rewrite decide_False by done.
  rewrite decide_True by done. done.
Qed.

End FileFacts.

(** ** ORDER BY and the table *)

Lemma insert_by_ts_perm row rows : Permutation (row :: rows) (insert_by_ts row rows).
Proof.
  induction rows as [|row' rows IH]; simpl; [done|].
  destruct (epoch_timestamp_sec row <=? epoch_timestamp_sec row')%Z; [done|].
  rewrite <- IH. apply perm_swap.
Qed.

Lemma order_by_ts_perm rows : Permutation rows (order_by_ts rows).
Proof.
  induction rows as [|row rows IH]; simpl; [done|].
  rewrite <- insert_by_ts_perm. by constructor.
Qed.

Lemma insert_by_ts_sorted row rows :
  Sorted ts_le rows -> Sorted ts_le (insert_by_ts row rows).
Proof.
  induction 1 as [|row' rows Hrows IH Hhd]; simpl; [by repeat constructor|].
  destruct (Z.leb_spec (epoch_timestamp_sec row) (epoch_timestamp_sec row')).
  - by repeat constructor.
  - constructor; [done|]. destruct Hhd as [|row'' rows' Hle]; simpl.
    + constructor. unfold ts_le. lia.
    + destruct (epoch_timestamp_sec row <=? epoch_timestamp_sec row'')%Z;
        constructor; unfold ts_le in *; lia.
Qed.

Lemma order_by_ts_sorted rows : Sorted ts_le (order_by_ts rows).
Proof.
  induction rows as [|row rows IH]; simpl; [constructor|].
  by apply insert_by_ts_sorted.
Qed.


Lemma Forall_select (P : Row -> Prop) q table :
  Forall P table -> Forall P (select q table).
Proof.
  rewrite !List.Forall_forall. intros Htable row Hin. apply Htable.
  unfold select in Hin.
  apply (Permutation_in _ (Permutation_sym (order_by_ts_perm _))) in Hin.
  by apply filter_In in Hin as [? _].
Qed.

Section DBFacts.
Context `{JSONCodec}.

Lemma OrgID_scan_row row extraMsg : OrgID (DBAuditLogger.scan_row row extraMsg) = org_id row.
Proof.
  unfold DBAuditLogger.scan_row. destruct (metadata row) as [s|]; [|done].
  destruct (negb _); [|done]. by destruct (json_Unmarshal _).
Qed.

Lemma EpochTimestampSec_scan_row row extraMsg :
  EpochTimestampSec (DBAuditLogger.scan_row row extraMsg) = epoch_timestamp_sec row.
Proof.
  unfold DBAuditLogger.scan_row. destruct (metadata row) as [s|]; [|done].
  destruct (negb _); [|done]. by destruct (json_Unmarshal _).
Qed.

Lemma scan_rows_spec rows events :
  Forall scannable rows ->
  DBAuditLogger.scan_rows rows events = (events ++ (event_of_row <$> rows), None).
Proof.
  intros Hrows. revert events.
  induction Hrows as [|row rows [extraMsg Hrow] Hrows IH]; intros events; simpl.
  - by rewrite app_nil_r.
  - rewrite Hrow, IH, <- app_assoc. unfold event_of_row. by rewrite Hrow.
Qed.

Lemma where_clause_db_filter orgID startEpochSec endEpochSec row :
  where_clause (query_of orgID startEpochSec endEpochSec) row =
    db_filter orgID startEpochSec endEpochSec (event_of_row row).
Proof.
  unfold where_clause, db_filter, event_of_row, query_of.
  rewrite OrgID_scan_row, EpochTimestampSec_scan_row. simpl.
  by destruct (endEpochSec >? 0)%Z.
Qed.

Lemma filter_fmap_event_of_row f g rows :
  (forall row, f row = g (event_of_row row)) ->
  event_of_row <$> List.filter f rows = List.filter g (event_of_row <$> rows).
Proof.
  intros Hfg. induction rows as [|row rows IH]; simpl; [done|].
  rewrite <- Hfg. destruct (f row); simpl; [f_equal|]; exact IH.
Qed.

Lemma DB_ReadAuditEvents_spec l orgID startEpochSec endEpochSec os table :
  DBAuditLogger.db l ∉ db_unavailable os ->
  databases os !! DBAuditLogger.db l = Some table ->
  Forall scannable table ->
  DBAuditLogger.ReadAuditEvents l orgID startEpochSec endEpochSec os =
    (event_of_row <$> select (query_of orgID startEpochSec endEpochSec) table, None).
Proof.
  intros Havail Htable Hrows. unfold DBAuditLogger.ReadAuditEvents, db_Query.
  rewrite decide_False by done. rewrite Htable. simpl.
  assert (Hq : (if (endEpochSec >? 0)%Z
                then mkQuery orgID startEpochSec (Some endEpochSec)
                else mkQuery orgID startEpochSec None)
               = query_of orgID startEpochSec endEpochSec).
  { unfold query_of. by destruct (endEpochSec >? 0)%Z. }
  rewrite Hq. rewrite scan_rows_spec; [done|]. by apply Forall_select.
Qed.

Lemma string_of_list_byte_nonempty bs :
  bs <> [] -> (string_of_list_byte bs =? "")%string = false.
Proof.
  intros Hbs. apply String.eqb_neq. intros Hs. apply Hbs.
  by rewrite <- (list_byte_of_string_of_list_byte bs), Hs.
Qed.

(** The row inserted for a record reads back as the record. *)
Lemma event_of_row_of_event e metadataJSON :
  (if not_nil (Metadata e) then json_Marshal (Metadata e) else Some [])
    = Some metadataJSON ->
  event_of_row (row_of_event e metadataJSON) = e.
Proof.
  destruct e as [u a x ts org md]. unfold event_of_row, row_of_event,
    DBAuditLogger.scan_row. simpl.
  destruct (not_nil md) eqn:Hmd.
  - intros Hm. rewrite string_of_list_byte_nonempty by eauto using Marshal_nonempty.
    simpl. rewrite list_byte_of_string_of_list_byte.
    by rewrite (Unmarshal_Marshal _ _ Hm).
  - intros [= <-]. simpl. by destruct md.
Qed.

Lemma DB_CreateAuditEvent_ok l username actionString extraMsg epochTimestampSec
    orgID metadata now os os' :
  DBAuditLogger.CreateAuditEvent l username actionString extraMsg
    epochTimestampSec orgID metadata now os = (None, os') ->
  exists table row,
    (DBAuditLogger.db l ∉ db_unavailable os) /\
    databases os !! DBAuditLogger.db l = Some table /\
    databases os' = <[DBAuditLogger.db l := table ++ [row]]> (databases os) /\
    db_unavailable os' = db_unavailable os /\
    scannable row /\
    event_of_row row = new_event username actionString extraMsg epochTimestampSec
                                 orgID metadata now.
Proof.
  unfold DBAuditLogger.CreateAuditEvent.
  destruct (if not_nil metadata then json_Marshal metadata else Some [])
    as [metadataJSON|] eqn:Hm; [|done].
  unfold db_Exec_insert.
  destruct (decide (DBAuditLogger.db l ∈ db_unavailable os)); [done|].
  destruct (databases os !! DBAuditLogger.db l) as [table|] eqn:Htable; [|done].
  intros [= <-]. eexists table, _. repeat split; try done.
  - by eexists.
  - apply (event_of_row_of_event
             (new_event username actionString extraMsg epochTimestampSec
                        orgID metadata now) metadataJSON Hm).
Qed.

End DBFacts.

(** ** Reading through the interface *)

Section ReadFacts.
Context `{JSONCodec}.

Lemma file_filter_matches l orgID startEpochSec endEpochSec e :
  file_filter orgID startEpochSec endEpochSec e = true <->
  matches_filter (File_AuditLogger l) orgID startEpochSec endEpochSec e.
Proof.
  unfold file_filter, matches_filter.
  rewrite !andb_true_iff, orb_true_iff, Z.eqb_eq, Z.geb_le, Z.eqb_eq, Z.leb_le.
  tauto.
Qed.

Lemma db_filter_matches l orgID startEpochSec endEpochSec e :
  db_filter orgID startEpochSec endEpochSec e = true <->
  matches_filter (DB_AuditLogger l) orgID startEpochSec endEpochSec e.
Proof.
  unfold db_filter, matches_filter.
  rewrite !andb_true_iff, orb_true_iff, negb_true_iff, Z.eqb_eq, Z.geb_le, Z.leb_le.
  rewrite Z.gtb_ltb, Z.ltb_ge. tauto.
Qed.

(** What the file store answers: the stored records that pass the filter,
    in the order of the file. *)
Lemma call_Read_file l orgID startEpochSec endEpochSec os :
  store_ok (File_AuditLogger (Some l)) os ->
  call_ReadAuditEvents (File_AuditLogger (Some l)) orgID startEpochSec endEpochSec os =
    Returns (List.filter (file_filter orgID startEpochSec endEpochSec)
                         (stored (File_AuditLogger (Some l)) os), None).
Proof.
  intros (contents & Hopen & _). simpl. rewrite Hopen.
  by rewrite (File_ReadAuditEvents_spec _ _ _ _ _ _ Hopen).
Qed.

(** What the relational store answers: the rows that pass the filter, in
    time order. *)
Lemma call_Read_db l orgID startEpochSec endEpochSec os :
  store_ok (DB_AuditLogger (Some l)) os ->
  exists table,
    databases os !! DBAuditLogger.db l = Some table /\
    Forall scannable table /\
    call_ReadAuditEvents (DB_AuditLogger (Some l)) orgID startEpochSec endEpochSec os =
      Returns (event_of_row <$>
                 order_by_ts (List.filter
                                (fun row => db_filter orgID startEpochSec endEpochSec
                                                      (event_of_row row)) table),
               None).
Proof.
  intros (Havail & table & Htable & Hrows). exists table. repeat split; try done.
  simpl. rewrite (DB_ReadAuditEvents_spec _ _ _ _ _ _ Havail Htable Hrows).
  unfold select. do 4 f_equal.
  apply filter_ext. intros row. apply where_clause_db_filter.
Qed.

Lemma In_order_by_ts row rows : In row (order_by_ts rows) <-> In row rows.
Proof.
  split; apply Permutation_in; [symmetry|]; apply order_by_ts_perm.
Qed.

(** A stored record that passes the filter is in the answer. *)
Lemma call_Read_complete logger orgID startEpochSec endEpochSec os e :
  store_ok logger os ->
  In e (stored logger os) ->
  matches_filter logger orgID startEpochSec endEpochSec e ->
  exists events,
    call_ReadAuditEvents logger orgID startEpochSec endEpochSec os =
      Returns (events, None) /\
    In e events.
Proof.
  destruct logger as [|[l|]|[l|]]; try done; intros Hok Hin He.
  - eexists. split; [exact (call_Read_file _ _ _ _ _ Hok)|].
    apply filter_In. split; [done|]. by apply (file_filter_matches (Some l)).
  - destruct (call_Read_db l orgID startEpochSec endEpochSec os Hok)
      as (table & Htable & Hrows & ->).
    eexists. split; [done|]. simpl stored in Hin. rewrite Htable in Hin.
    apply in_map_iff in Hin as (row & <- & Hin). apply in_map_iff.
    exists row. split; [done|]. apply In_order_by_ts, filter_In. split; [done|].
    by apply (db_filter_matches (Some l)).
Qed.

(** Every record of an answer is of the tenant that was asked for. *)
Lemma call_Read_tenant logger orgID startEpochSec endEpochSec os events e :
  store_ok logger os ->
  call_ReadAuditEvents logger orgID startEpochSec endEpochSec os =
    Returns (events, None) ->
  In e events -> OrgID e = orgID.
Proof.
  destruct logger as [|[l|]|[l|]]; try done; intros Hok.
  - rewrite (call_Read_file _ _ _ _ _ Hok). intros [= <-] Hin.
    apply filter_In in Hin as [_ He].
    by apply (file_filter_matches (Some l)) in He as [? _].
  - destruct (call_Read_db l orgID startEpochSec endEpochSec os Hok)
      as (table & Htable & Hrows & ->).
    intros [= <-] Hin. apply in_map_iff in Hin as (row & <- & Hin).
    apply In_order_by_ts, filter_In in Hin as [_ He].
    by apply (db_filter_matches (Some l)) in He as [? _].
Qed.

(** A successful [CreateAuditEvent] adds one record at the end of the
    store and leaves it able to answer. *)
Lemma call_Create_stored logger username actionString extraMsg epochTimestampSec
    orgID metadata now os os' :
  store_ok logger os ->
  call_CreateAuditEvent logger username actionString extraMsg epochTimestampSec
    orgID metadata now os = Returns (None, os') ->
  store_ok logger os' /\
  stored logger os' =
    stored logger os ++ [new_event username actionString extraMsg
                                   epochTimestampSec orgID metadata now].
Proof.
  destruct logger as [|[l|]|[l|]]; try done; simpl.
  - intros (contents & Hopen & Hterm) [= Hcreate].
    apply File_CreateAuditEvent_ok in Hcreate
      as (contents' & eventJSON & Hopen' & Hmarshal & Hopen'' & _).
    rewrite Hopen in Hopen'. injection Hopen' as <-.
    rewrite Hopen, Hopen''. split.
    + eexists. split; [done|]. apply terminated_append.
    + by apply file_events_append.
  - intros (Havail & table & Htable & Hrows) [= Hcreate].
    apply DB_CreateAuditEvent_ok in Hcreate
      as (table' & row & _ & Htable' & Hdbs & Hunavail & Hrow & Hevent).
    rewrite Htable in Htable'. injection Htable' as <-.
    rewrite Htable, Hdbs, Hunavail, lookup_insert_eq. split.
    + split; [done|]. eexists. split; [done|].
      apply Forall_app. split; [done|]. by constructor.
    + by rewrite fmap_app, <- Hevent.
Qed.

End ReadFacts.


(** ** Sorted sequences of timestamps *)

Lemma filter_andb {A} (p q : A -> bool) l :
  List.filter (fun x => p x && q x) l = List.filter q (List.filter p l).
Proof.
  induction l as [|x l IH]; simpl; [done|].
  destruct (p x); simpl; [|done]. destruct (q x); by rewrite IH.
Qed.

Lemma In_fmap_filter {A B} (f : A -> B) (p : A -> bool) l y :
  In y (f <$> List.filter p l) -> In y (f <$> l).
Proof.
  rewrite !in_map_iff. intros (x & <- & Hin). apply filter_In in Hin as [Hin _].
  eauto.
Qed.

Lemma NoDup_fmap_filter {A B} (f : A -> B) (p : A -> bool) l :
  List.NoDup (f <$> l) -> List.NoDup (f <$> List.filter p l).
Proof.
  induction l as [|x l IH]; simpl; [done|]. intros Hnd.
  apply List.NoDup_cons_iff in Hnd as [Hx Hnd]. destruct (p x); simpl; [|auto].
  apply List.NoDup_cons; [|auto]. intros Hin. apply Hx. eauto using In_fmap_filter.
Qed.

Lemma StronglySorted_fmap_filter {A B} (R : B -> B -> Prop) (f : A -> B)
    (p : A -> bool) l :
  StronglySorted R (f <$> l) -> StronglySorted R (f <$> List.filter p l).
Proof.
  induction l as [|x l IH]; simpl; [done|]. intros Hs.
  apply StronglySorted_inv in Hs as [Hs Hx]. destruct (p x); simpl; [|auto].
  constructor; [auto|]. rewrite List.Forall_forall in *.
  eauto using In_fmap_filter.
Qed.

Lemma StronglySorted_le_lt l :
  StronglySorted Z.le l -> List.NoDup l -> StronglySorted Z.lt l.
Proof.
  induction 1 as [|x l Hl IH Hx]; intros Hnd; [constructor|].
  apply List.NoDup_cons_iff in Hnd as [Hnotin Hnd]. constructor; [auto|].
  rewrite List.Forall_forall in *. intros y Hy. specialize (Hx y Hy).
  assert (x <> y) by (by intros ->). lia.
Qed.

Lemma Sorted_le_lt l : Sorted Z.le l -> List.NoDup l -> Sorted Z.lt l.
Proof.
  intros Hl Hnd. apply StronglySorted_Sorted, StronglySorted_le_lt; [|done].
  apply Sorted_StronglySorted; [|done]. intros x y z. apply Z.le_trans.
Qed.

Lemma Sorted_lt_fmap_filter {A} (f : A -> Z) (p : A -> bool) l :
  Sorted Z.lt (f <$> l) -> Sorted Z.lt (f <$> List.filter p l).
Proof.
  intros Hl. apply StronglySorted_Sorted, StronglySorted_fmap_filter.
  apply Sorted_StronglySorted; [|done]. intros x y z. apply Z.lt_trans.
Qed.

Lemma Sorted_ts_le_fmap rows :
  Sorted ts_le rows <-> Sorted Z.le (epoch_timestamp_sec <$> rows).
Proof.
  induction rows as [|row rows IH]; simpl; [split; constructor|]. split.
  - intros Hs. apply Sorted_inv in Hs as [Hs Hhd]. constructor; [by apply IH|].
    destruct Hhd; simpl; by constructor.
  - intros Hs. apply Sorted_inv in Hs as [Hs Hhd]. constructor; [by apply IH|].
    destruct rows; simpl in *; constructor. by apply HdRel_inv in Hhd.
Qed.

Section OrderFacts.
Context `{JSONCodec}.

Lemma timestamps_event_of_row rows :
  timestamps (event_of_row <$> rows) = epoch_timestamp_sec <$> rows.
Proof.
  unfold timestamps. rewrite <- list_fmap_compose. apply list_fmap_ext.
  intros i row _. apply EpochTimestampSec_scan_row.
Qed.

Lemma file_filter_of_tenant orgID startEpochSec endEpochSec events :
  List.filter (file_filter orgID startEpochSec endEpochSec) events =
    List.filter (fun e => (EpochTimestampSec e >=? startEpochSec)%Z &&
                          ((endEpochSec =? 0)%Z ||
                           (EpochTimestampSec e <=? endEpochSec)%Z))
                (of_tenant orgID events).
Proof.
  unfold of_tenant. rewrite <- filter_andb. apply filter_ext. intros e.
  unfold file_filter. by rewrite andb_assoc.
Qed.

Lemma db_filter_of_tenant orgID startEpochSec endEpochSec events :
  List.filter (db_filter orgID startEpochSec endEpochSec) events =
    List.filter (fun e => (EpochTimestampSec e >=? startEpochSec)%Z &&
                          (negb (endEpochSec >? 0)%Z ||
                           (EpochTimestampSec e <=? endEpochSec)%Z))
                (of_tenant orgID events).
Proof.
  unfold of_tenant. rewrite <- filter_andb. apply filter_ext. intros e.
  unfold db_filter. by rewrite andb_assoc.
Qed.

End OrderFacts.

(** ** The two stores side by side *)

Section BothStores.
Context `{JSONCodec}.

(** On a store that answers, a call fails only when the record cannot be
    serialized, and then changes nothing. *)
Lemma File_create_step l c os :
  store_ok (File_AuditLogger (Some l)) os -> disk_full os = false ->
  let e := new_event (c_username c) (c_actionString c) (c_extraMsg c)
                     (c_epochTimestampSec c) (c_orgID c) (c_metadata c) (c_now c) in
  let os' := create_step (File_AuditLogger (Some l)) os c in
  disk_full os' = false /\
  store_ok (File_AuditLogger (Some l)) os' /\
  stored (File_AuditLogger (Some l)) os' =
    stored (File_AuditLogger (Some l)) os ++
    match json_MarshalEvent e with Some _ => [e] | None => [] end.
Proof.
  intros Hok Hfull e os'. subst os'. unfold create_step.
  destruct (json_MarshalEvent e) as [eventJSON|] eqn:Hm.
  - assert (Hcreate : exists os1,
      call_CreateAuditEvent (File_AuditLogger (Some l)) (c_username c)
        (c_actionString c) (c_extraMsg c) (c_epochTimestampSec c) (c_orgID c)
        (c_metadata c) (c_now c) os = Returns (None, os1) /\
      disk_full os1 = false).
    { destruct Hok as (contents & Hopen & _). simpl.
      unfold FileAuditLogger.CreateAuditEvent. unfold e, new_event in Hm.
      rewrite Hm, Hopen.
      unfold file_Write. rewrite Hfull. unfold os_Open in Hopen.
      destruct (decide _); [done|]. rewrite Hopen. eauto. }
    destruct Hcreate as (os1 & Hcreate & Hfull1). rewrite Hcreate.
    destruct (call_Create_stored _ _ _ _ _ _ _ _ _ _ Hok Hcreate). done.
  - simpl. unfold FileAuditLogger.CreateAuditEvent. unfold e, new_event in Hm.
    rewrite Hm. by rewrite app_nil_r.
Qed.

Lemma DB_create_step l c os :
  store_ok (DB_AuditLogger (Some l)) os ->
  let e := new_event (c_username c) (c_actionString c) (c_extraMsg c)
                     (c_epochTimestampSec c) (c_orgID c) (c_metadata c) (c_now c) in
  let os' := create_step (DB_AuditLogger (Some l)) os c in
  store_ok (DB_AuditLogger (Some l)) os' /\
  stored (DB_AuditLogger (Some l)) os' =
    stored (DB_AuditLogger (Some l)) os ++
    match json_MarshalEvent e with Some _ => [e] | None => [] end.
Proof.
  intros Hok e os'. subst os'. unfold create_step.
  pose proof (MarshalEvent_defined e) as Hdef.
  assert (Hmd : Metadata e = c_metadata c) by done.
  destruct (if not_nil (c_metadata c) then json_Marshal (c_metadata c) else Some [])
    as [metadataJSON|] eqn:Hm.
  - assert (Hcreate : exists os1,
      call_CreateAuditEvent (DB_AuditLogger (Some l)) (c_username c)
        (c_actionString c) (c_extraMsg c) (c_epochTimestampSec c) (c_orgID c)
        (c_metadata c) (c_now c) os = Returns (None, os1)).
    { destruct Hok as (Havail & table & Htable & _). simpl.
      unfold DBAuditLogger.CreateAuditEvent. rewrite Hm.
      unfold db_Exec_insert. rewrite decide_False by done. rewrite Htable. eauto. }
    destruct Hcreate as (os1 & Hcreate). rewrite Hcreate.
    destruct (call_Create_stored _ _ _ _ _ _ _ _ _ _ Hok Hcreate) as [? ->].
    split; [done|]. fold e.
    destruct (json_MarshalEvent e); [done|]. destruct Hdef as [_ Hdef].
    destruct Hdef as [? Hdef]; [|done]. rewrite Hmd.
    destruct (c_metadata c); simpl in Hm; eauto.
  - simpl. unfold DBAuditLogger.CreateAuditEvent. rewrite Hm.
    destruct (json_MarshalEvent e) eqn:He; [|by rewrite app_nil_r].
    destruct Hdef as [Hdef _]. rewrite Hmd in Hdef.
    destruct Hdef as [Hnil|[? Hsome]]; [by eexists|..].
    + rewrite Hnil in Hm. done.
    + rewrite Hsome in Hm. by destruct (not_nil (c_metadata c)).
Qed.



End BothStores.

(** ** The stores: claims C1 to C4 *)

Section StoreClaims.
Context `{JSONCodec}.


(** C3, as amended. The relational store returns the records in ascending
    time order, strictly ascending when the timestamps of the tenant are
    distinct. The file store returns them in the order they were appended:
    strictly ascending when the records of the tenant were appended in
    strictly ascending time order. *)
Theorem read_order orgID startEpochSec endEpochSec os :
  (forall l,
     store_ok (DB_AuditLogger (Some l)) os ->
     exists events,
       call_ReadAuditEvents (DB_AuditLogger (Some l)) orgID startEpochSec
         endEpochSec os = Returns (events, None) /\
       Sorted Z.le (timestamps events) /\
       (List.NoDup (timestamps (of_tenant orgID (stored (DB_AuditLogger (Some l)) os))) ->
        Sorted Z.lt (timestamps events))) /\
  (forall l,
     store_ok (File_AuditLogger (Some l)) os ->
     exists events,
       call_ReadAuditEvents (File_AuditLogger (Some l)) orgID startEpochSec
         endEpochSec os = Returns (events, None) /\
       events = List.filter (file_filter orgID startEpochSec endEpochSec)
                            (stored (File_AuditLogger (Some l)) os) /\
       (Sorted Z.lt (timestamps (of_tenant orgID (stored (File_AuditLogger (Some l)) os))) ->
        Sorted Z.lt (timestamps events))).
Proof.
  split; intros l Hok.
  - destruct (call_Read_db l orgID startEpochSec endEpochSec os Hok)
      as (table & Htable & Hrows & ->).
    eexists. split; [done|].
    assert (Hle : Sorted Z.le (timestamps (event_of_row <$>
              order_by_ts (List.filter
                (fun row => db_filter orgID startEpochSec endEpochSec (event_of_row row))
                table)))).
    { rewrite timestamps_event_of_row. apply Sorted_ts_le_fmap, order_by_ts_sorted. }
    split; [done|]. intros Hnd. apply Sorted_le_lt; [done|].
    simpl stored in Hnd. rewrite Htable in Hnd.
    eapply Permutation_NoDup.
    { unfold timestamps. apply fmap_Permutation, fmap_Permutation, order_by_ts_perm. }
    rewrite (filter_fmap_event_of_row _ (db_filter orgID startEpochSec endEpochSec))
      by done.
    rewrite db_filter_of_tenant. by apply NoDup_fmap_filter.
  - eexists. split; [exact (call_Read_file _ _ _ _ _ Hok)|]. split; [done|].
    intros Hs. rewrite file_filter_of_tenant. by apply Sorted_lt_fmap_filter.
Qed.


(** C4, as amended. A stored record is returned by [ReadAuditEvents] if and
    only if its tenant is [orgID], its timestamp is at least
    [startEpochSec], and [endEpochSec] is no bound or its timestamp is at
    most [endEpochSec]; [endEpochSec] is no bound when it is 0 in the file
    store, and when it is 0 or negative in the relational store. *)
Theorem read_returns_the_matching_records logger orgID startEpochSec endEpochSec os :
  store_ok logger os ->
  exists events,
    call_ReadAuditEvents logger orgID startEpochSec endEpochSec os =
      Returns (events, None) /\
    forall e, In e events <->
              In e (stored logger os) /\
              matches_filter logger orgID startEpochSec endEpochSec e.
Proof.
  destruct logger as [|[l|]|[l|]]; try done; intros Hok.
  - eexists. split; [exact (call_Read_file _ _ _ _ _ Hok)|]. intros e.
    rewrite filter_In, (file_filter_matches (Some l)). tauto.
  - destruct (call_Read_db l orgID startEpochSec endEpochSec os Hok)
      as (table & Htable & Hrows & ->).
    eexists. split; [done|]. intros e. simpl stored. rewrite Htable.
    rewrite !in_map_iff. split.
    + intros (row & <- & Hin). apply In_order_by_ts, filter_In in Hin as [Hin He].
      split; [eauto|]. by apply (db_filter_matches (Some l)).
    + intros [(row & <- & Hin) He]. exists row. split; [done|].
      apply In_order_by_ts, filter_In. split; [done|].
      by apply (db_filter_matches (Some l)).
Qed.

End StoreClaims.

(** ** The file store: claims C8 and C9 *)

Section FileClaims.
Context `{JSONCodec}.




End FileClaims.

Lemma os_Stat_after_Create filePath os os' :
  os_Stat filePath os = StatNotExist ->
  os_Create filePath os = Some os' ->
  os_Stat filePath os' = StatOk /\ os_Open filePath os' = Some [].
Proof.
  unfold os_Stat, os_Create, os_Open.
  destruct (decide (filePath ∈ stat_errors os)); [done|]. intros _.
  destruct (decide (filePath ∈ uncreatable os)); [done|]. intros [= <-].
  unfold set_files. simpl.
  destruct (decide (filePath ∈ stat_errors os)); [done|].
  rewrite !lookup_insert_eq. done.
Qed.


(** ** The registry: lemmas for claims C5 and C6 *)

(** An error of [InitAuditLogger] either leaves the state as it was (the
    configuration errors) or comes from a constructor that failed, and then
    [loggerInstance] holds the nil pointer the constructor returned. *)
Lemma InitAuditLogger_error loggerType config st e st' :
  InitAuditLogger loggerType config st = (Some e, st') ->
  (st' = st /\
   (e = ErrFilePathNotProvided \/ e = ErrDBPathNotProvided \/
    e = ErrUnsupportedLoggerType loggerType)) \/
  (env st' = env st /\
   ((e = ErrCreateFile /\ loggerInstance st' = File_AuditLogger None) \/
    (e = ErrCreateTable /\ loggerInstance st' = DB_AuditLogger None))).
Proof.
  unfold InitAuditLogger.
  destruct (loggerType =? FileLoggerType)%string.
  { destruct (config !! "filePath") as [filePath|]; [|intros [= <- <-]; auto].
    unfold NewFileAuditLogger. destruct (os_IsNotExist _); [|done].
    destruct (os_Create _ _); [done|]. intros [= <- <-]. right. auto. }
  destruct (loggerType =? DBLoggerType)%string.
  { destruct (config !! "dbPath") as [dbPath|]; [|intros [= <- <-]; auto].
    unfold NewDBAuditLogger, sql_Open. destruct (db_Exec_create _ _); [done|].
    intros [= <- <-]. right. auto. }
  intros [= <- <-]. auto 6.
Qed.

Section RegistryFacts.
Context `{JSONCodec}.

(** While [loggerInstance] is the nil interface, every entry point returns
    the "not initialized" error and changes nothing. *)
Lemma not_initialized st :
  loggerInstance st = nil_AuditLogger ->
  GetAuditLogger st = (nil_AuditLogger, Some ErrNotInitialized) /\
  (forall username actionString extraMsg epochTimestampSec orgID metadata now,
     CreateAuditEvent username actionString extraMsg epochTimestampSec orgID
       metadata now st = Returns (Some ErrNotInitialized, st)) /\
  (forall orgID startEpochSec endEpochSec,
     ReadAuditEvents orgID startEpochSec endEpochSec st =
       Returns ([], Some ErrNotInitialized)).
Proof.
  intros Hnil. unfold CreateAuditEvent, ReadAuditEvents, GetAuditLogger.
  by rewrite Hnil.
Qed.

(** The facade on a store that answers: the call returns, and the record
    is at the end of the store if it could be serialized. *)
Lemma facade_Create_stored username actionString extraMsg epochTimestampSec orgID
    metadata now st :
  store_ok (loggerInstance st) (env st) -> disk_full (env st) = false ->
  let e := new_event username actionString extraMsg epochTimestampSec orgID
                     metadata now in
  exists err st',
    CreateAuditEvent username actionString extraMsg epochTimestampSec orgID
      metadata now st = Returns (err, st') /\
    loggerInstance st' = loggerInstance st /\
    store_ok (loggerInstance st') (env st') /\
    stored (loggerInstance st') (env st') =
      stored (loggerInstance st) (env st) ++
      match json_MarshalEvent e with Some _ => [e] | None => [] end.
Proof.
  intros Hok Hfull e.
  set (c := mkCall username actionString extraMsg epochTimestampSec orgID metadata now).
  unfold CreateAuditEvent, GetAuditLogger.
  destruct (loggerInstance st) as [|[l|]|[l|]] eqn:Hlogger; try done.
  - destruct (File_create_step l c (env st) Hok Hfull) as (_ & Hok' & Hstored).
    unfold create_step in Hok', Hstored. simpl in Hok', Hstored. simpl.
    destruct (FileAuditLogger.CreateAuditEvent _ _ _ _ _ _ _ _ _) as [err os'].
    by exists err, (mkState (File_AuditLogger (Some l)) os').
  - destruct (DB_create_step l c (env st) Hok) as (Hok' & Hstored).
    unfold create_step in Hok', Hstored. simpl in Hok', Hstored. simpl.
    destruct (DBAuditLogger.CreateAuditEvent _ _ _ _ _ _ _ _ _) as [err os'].
    by exists err, (mkState (DB_AuditLogger (Some l)) os').
Qed.

Lemma facade_Read st orgID startEpochSec endEpochSec :
  loggerInstance st <> nil_AuditLogger ->
  ReadAuditEvents orgID startEpochSec endEpochSec st =
    call_ReadAuditEvents (loggerInstance st) orgID startEpochSec endEpochSec (env st).
Proof.
  unfold ReadAuditEvents, GetAuditLogger. by destruct (loggerInstance st).
Qed.

End RegistryFacts.

(** ** The adapter: claims C7 and C10 *)

Lemma find_action_app before entries method path :
  Forall (fun entry => pattern_matches (fst entry) method path = false) before ->
  find_action (before ++ entries) method path = find_action entries method path.
Proof.
  induction 1 as [|[pattern action] before Hentry _ IH]; [done|].
  simpl in *. by rewrite Hentry.
Qed.

(** C7, as amended. The adapter takes the label of the first entry, in the
    order the loop visits the map, whose method and path pattern match the
    request, be it an exact or a wildcard entry. When no entry matches, or
    that label is empty, it makes the label "<method> request to <path>". *)
Theorem action_label_first_match method path :
  (forall entries,
     Forall (fun entry => pattern_matches (fst entry) method path = false) entries ->
     action_label entries method path = method +:+ " request to " +:+ path) /\
  (forall before pattern action after,
     Forall (fun entry => pattern_matches (fst entry) method path = false) before ->
     pattern_matches pattern method path = true ->
     action_label (before ++ (pattern, action) :: after) method path =
       if (action =? "")%string then method +:+ " request to " +:+ path else action).
Proof.
  split.
  - intros entries Hentries. unfold action_label.
    rewrite <- (app_nil_r entries), find_action_app by done. done.
  - intros before pattern action after Hbefore Hmatch. unfold action_label.
    rewrite find_action_app by done. simpl. by rewrite Hmatch.
Qed.

Lemma getOrgIDFromContext_no_tenant ctx :
  (forall orgID, ctx !! AuditOrgIDKey <> Some (ctx_int64 orgID)) ->
  getOrgIDFromContext ctx = 0%Z.
Proof.
  intros Hctx. unfold getOrgIDFromContext.
  destruct (ctx !! AuditOrgIDKey) as [[]|] eqn:Hkey; try done.
  by destruct (Hctx n).
Qed.

Section AdapterClaims.
Context `{JSONCodec}.
Variable Duration_String : Z -> string.

(** C10. When the context of the request holds no tenant id of type int64,
    the adapter submits the event under tenant 0. On a store that answers
    and a codec that serializes every record, the event is stored; it is
    returned by a query of tenant 0 whose time range holds its timestamp,
    and by no query of another tenant. *)
Theorem missing_tenant_is_recorded_as_tenant_zero entries next r duration now
    st codes st1 :
  (forall orgID, Context r !! AuditOrgIDKey <> Some (ctx_int64 orgID)) ->
  next r st = (codes, st1) ->
  store_ok (loggerInstance st1) (env st1) -> disk_full (env st1) = false ->
  (forall e, is_Some (json_MarshalEvent e)) ->
  getOrgIDFromContext (Context r) = 0%Z /\
  exists st2 e,
    AuditMiddleware Duration_String entries next r duration now st = Returns st2 /\
    OrgID e = 0%Z /\ EpochTimestampSec e = now /\
    Username e = getUsernameFromContext (Context r) /\
    ActionString e = action_label entries (Method r) (URL_Path r) /\
    stored (loggerInstance st2) (env st2) =
      stored (loggerInstance st1) (env st1) ++ [e] /\
    (forall startEpochSec endEpochSec,
       (startEpochSec <= now)%Z -> (now <= endEpochSec)%Z \/ endEpochSec = 0%Z ->
       exists events,
         ReadAuditEvents 0 startEpochSec endEpochSec st2 = Returns (events, None) /\
         In e events) /\
    (forall orgID startEpochSec endEpochSec events,
       orgID <> 0%Z ->
       ReadAuditEvents orgID startEpochSec endEpochSec st2 = Returns (events, None) ->
       ~ In e events).
Proof.
  intros Hctx Hnext Hok Hfull Hcodec.
  pose proof (getOrgIDFromContext_no_tenant _ Hctx) as Horg. split; [done|].
  unfold AuditMiddleware. rewrite Hnext, Horg.
  match goal with
  | |- context [CreateAuditEvent ?u ?a ?x ?ts ?org ?md ?now' st1] =>
      destruct (facade_Create_stored u a x ts org md now' st1 Hok Hfull)
        as (err & st2 & -> & Hlogger & Hok2 & Hstored);
      set (e := new_event u a x ts org md now') in *
  end.
  destruct (Hcodec e) as [eventJSON He]. rewrite He in Hstored.
  assert (Hts : EpochTimestampSec e = now).
  { unfold e, new_event. simpl. by destruct (now =? 0)%Z. }
  assert (Hnonnil : loggerInstance st2 <> nil_AuditLogger).
  { intros Hnil. by rewrite Hnil in Hok2. }
  exists st2, e. repeat split; try done.
  - intros startEpochSec endEpochSec Hstart Hend. rewrite facade_Read by done.
    apply call_Read_complete; [done|..].
    + rewrite Hstored. apply in_or_app. right. by left.
    + unfold matches_filter. rewrite Hts. repeat split; [done|].
      destruct (loggerInstance st2); lia.
  - intros orgID startEpochSec endEpochSec events Horg' Hread Hin.
    rewrite facade_Read in Hread by done.
    by apply (call_Read_tenant _ _ _ _ _ _ _ Hok2 Hread) in Hin.
Qed.

End AdapterClaims.

(** ** Examples on the codec of module [JSON] *)

Definition os_file : OS := create_all (H:=Go_json) file_logger scenario os0.
Definition os_db : OS := create_all (H:=Go_json) db_logger scenario os0.

Lemma store_ok_file_os0 : store_ok file_logger os0.
Proof. exists []. split; [vm_compute; reflexivity|]. by left. Defined.


Lemma store_ok_os_file : store_ok file_logger os_file.
Proof. eexists. split; [vm_compute; reflexivity|]. right. vm_compute. reflexivity. Defined.

Lemma store_ok_os_db : store_ok db_logger os_db.
Proof.
  split; [vm_compute; discriminate|].
  eexists. split; [vm_compute; reflexivity|].
  repeat constructor; by eexists.
Defined.

(** *** C1 *)




(** *** C2 *)



(** *** C3 *)

Lemma read_order_witness :
  exists events,
    call_ReadAuditEvents (H:=Go_json) db_logger 123 0 0 os_db = Returns (events, None) /\
    Sorted Z.le (timestamps events) /\
    (List.NoDup (timestamps (of_tenant 123 (stored (H:=Go_json) db_logger os_db))) ->
     Sorted Z.lt (timestamps events)).
Proof.
  apply (proj1 (read_order (H:=Go_json) 123 0 0 os_db)). exact store_ok_os_db.
Defined.

(** C3 as stated fails on the file store: two records with distinct
    timestamps, appended the later one first, are returned in that order. *)
Lemma file_store_keeps_append_order :
  exists events,
    call_ReadAuditEvents (H:=Go_json) file_logger 1 0 0
      (create_all (H:=Go_json) file_logger unordered os0) = Returns (events, None) /\
    timestamps (of_tenant 1 (stored (H:=Go_json) file_logger
                               (create_all (H:=Go_json) file_logger unordered os0)))
      = [200; 100]%Z /\
    timestamps events = [200; 100]%Z /\
    ~ Sorted Z.lt (timestamps events).
Proof.
  eexists. split; [vm_compute; reflexivity|]. split; [vm_compute; reflexivity|].
  split; [vm_compute; reflexivity|]. intros Hs. vm_compute in Hs.
  apply Sorted_inv in Hs as [_ Hhd]. apply HdRel_inv in Hhd. discriminate Hhd.
Qed.

(** *** C4 *)

Lemma read_returns_the_matching_records_witness :
  exists events,
    call_ReadAuditEvents (H:=Go_json) file_logger 123 1700000030 1700000090 os_file =
      Returns (events, None) /\
    forall e, In e events <->
              In e (stored (H:=Go_json) file_logger os_file) /\
              matches_filter file_logger 123 1700000030 1700000090 e.
Proof.
  apply (read_returns_the_matching_records (H:=Go_json)). exact store_ok_os_file.
Defined.

(** C4 as stated fails on the relational store: with a negative
    [endEpochSec] it returns a record whose timestamp is above it. *)
Lemma relational_store_ignores_negative_end :
  exists e,
    call_ReadAuditEvents (H:=Go_json) db_logger 456 0 (-1) os_db = Returns ([e], None) /\
    In e (stored (H:=Go_json) db_logger os_db) /\
    ~ (OrgID e = 456%Z /\ (0 <= EpochTimestampSec e)%Z /\
       ((-1)%Z = 0%Z \/ (EpochTimestampSec e <= -1)%Z)).
Proof.
  eexists. split; [vm_compute; reflexivity|]. split.
  - vm_compute. auto.
  - simpl. lia.
Qed.

(** *** C5 and C6 *)

(** C5, on the failing input. With a file logger active, [InitAuditLogger]
    for a file that cannot be created returns the error of the constructor
    and has stored the nil pointer in [loggerInstance]: the active store is
    gone, [GetAuditLogger] returns that pointer without an error, and the
    facade dereferences it. *)
Theorem failed_construction_replaces_the_logger :
  exists st1 st2,
    InitAuditLogger FileLoggerType {["filePath" := "audit.log"]} st0 = (None, st1) /\
    loggerInstance st1 = file_logger /\
    ReadAuditEvents (H:=Go_json) 123 0 0 st1 = Returns ([], None) /\
    InitAuditLogger FileLoggerType {["filePath" := "/missing/audit.log"]} st1 =
      (Some ErrCreateFile, st2) /\
    loggerInstance st2 = File_AuditLogger None /\
    env st2 = env st1 /\
    GetAuditLogger st2 = (File_AuditLogger None, None) /\
    ReadAuditEvents (H:=Go_json) 123 0 0 st2 = Panics /\
    CreateAuditEvent (H:=Go_json) "alice" "User logged in" "" 1700000000 123 JNull
      1700000500 st2 = Panics.
Proof. do 2 eexists. repeat split; vm_compute; reflexivity. Qed.

(** C6, on the failing input. Before any call the entry points return the
    "not initialized" error; after an [InitAuditLogger] that failed in the
    constructor they do not, although no call has succeeded:
    [GetAuditLogger] returns the nil pointer without an error and the facade
    dereferences it. *)
Theorem failed_construction_hides_not_initialized :
  GetAuditLogger st0 = (nil_AuditLogger, Some ErrNotInitialized) /\
  ReadAuditEvents (H:=Go_json) 123 0 0 st0 = Returns ([], Some ErrNotInitialized) /\
  exists st',
    InitAuditLogger DBLoggerType {["dbPath" := "/missing/audit.db"]} st0 =
      (Some ErrCreateTable, st') /\
    GetAuditLogger st' = (DB_AuditLogger None, None) /\
    ReadAuditEvents (H:=Go_json) 123 0 0 st' = Panics /\
    CreateAuditEvent (H:=Go_json) "alice" "User logged in" "" 1700000000 123 JNull
      1700000500 st' = Panics.
Proof.
  split; [reflexivity|]. split; [reflexivity|].
  eexists. repeat split; vm_compute; reflexivity.
Qed.

(** *** C7 *)

Lemma action_label_first_match_witness :
  action_label [("POST /login", "User logged in")] "GET" "/users" =
    "GET request to /users" /\
  action_label ([("POST /login", "User logged in")] ++
                ("GET /users", "Users listed") :: [("GET /users*", "User read")])
               "GET" "/users" =
    (if ("Users listed" =? "")%string then "GET request to /users" else "Users listed").
Proof.
  split.
  - apply (proj1 (action_label_first_match "GET" "/users")).
    repeat constructor.
  - apply (proj2 (action_label_first_match "GET" "/users")).
    + repeat constructor.
    + reflexivity.
Defined.

(** C7 as stated fails: the map holds an exact entry and a wildcard entry
    that both match, the loop visits the wildcard entry first, and the
    adapter takes its label. *)
Lemma wildcard_entry_can_win :
  let entries := [("GET /users*", "User read"); ("GET /users", "Users listed")] in
  Permutation entries (map_to_list mapping) /\
  pattern_matches "GET /users" "GET" "/users" = true /\
  pattern_matches "GET /users*" "GET" "/users" = true /\
  action_label entries "GET" "/users" = "User read".
Proof.
  repeat split; reflexivity.
Qed.

(** *** C8 *)


(** *** C9 *)



(** *** C10 *)

Lemma missing_tenant_is_recorded_as_tenant_zero_witness :
  getOrgIDFromContext (Context request) = 0%Z /\
  exists st2 e,
    AuditMiddleware (H:=Go_json) (fun _ => "1ms") (map_to_list mapping)
      (fun _ st => ([], st)) request 1000000 1700000500
      (mkState file_logger os0) = Returns st2 /\
    OrgID e = 0%Z /\ EpochTimestampSec e = 1700000500%Z /\
    Username e = getUsernameFromContext (Context request) /\
    ActionString e = action_label (map_to_list mapping) (Method request)
                                  (URL_Path request) /\
    stored (H:=Go_json) (loggerInstance st2) (env st2) =
      stored (H:=Go_json) file_logger os0 ++ [e] /\
    (forall startEpochSec endEpochSec,
       (startEpochSec <= 1700000500)%Z ->
       (1700000500 <= endEpochSec)%Z \/ endEpochSec = 0%Z ->
       exists events,
         ReadAuditEvents (H:=Go_json) 0 startEpochSec endEpochSec st2 =
           Returns (events, None) /\
         In e events) /\
    (forall orgID startEpochSec endEpochSec events,
       orgID <> 0%Z ->
       ReadAuditEvents (H:=Go_json) orgID startEpochSec endEpochSec st2 =
         Returns (events, None) ->
       ~ In e events).
Proof.
  apply (missing_tenant_is_recorded_as_tenant_zero (H:=Go_json) (fun _ => "1ms")
           (map_to_list mapping) (fun _ st => ([], st)) request 1000000 1700000500
           (mkState file_logger os0) [] (mkState file_logger os0)).
  - intros orgID. vm_compute. discriminate.
  - reflexivity.
  - exact store_ok_file_os0.
  - reflexivity.
  - intros e. eexists. reflexivity.
Defined.

(** * Further properties of the package *)

(** ** The scanner *)

Lemma Scan_loop_line line acc rest :
  one_line line ->
  Scan_loop (line ++ x0a :: rest) acc = (Some (acc ++ line), rest).
Proof.
  revert acc. induction line as [|b line IH]; intros acc Hline; simpl.
  - by rewrite app_nil_r.
  - destruct (Byte.eqb b x0a) eqn:Hb.
    + apply Byte.byte_dec_bl in Hb as ->. destruct Hline. by left.
    + rewrite IH, <- app_assoc; [done|]. intros Hin. apply Hline. by right.
Qed.

Lemma Scan_loop_last line acc :
  one_line line -> line <> [] ->
  Scan_loop line acc = (Some (acc ++ line), []).
Proof.
  revert acc. induction line as [|b line IH]; intros acc Hline Hne; [done|].
  simpl. destruct (Byte.eqb b x0a) eqn:Hb.
  { apply Byte.byte_dec_bl in Hb as ->. destruct Hline. by left. }
  destruct line as [|b' line].
  - simpl. rewrite length_app. simpl.
    by replace (0 <? length acc + 1)%nat with true by (symmetry; apply Nat.ltb_lt; lia).
  - rewrite IH, <- app_assoc; [done| |done]. intros Hin. apply Hline. by right.
Qed.

(** X1. [Scan] hands out the file line by line: the bytes up to the next
    newline, which it consumes; a last line without a newline as it is; and
    nothing, leaving the scanner as it was, at the end of the file. *)
Theorem Scan_delivers_lines line rest e current :
  one_line line ->
  Scan (mkJSONScanner (line ++ x0a :: rest) e current) =
    (true, mkJSONScanner rest e line) /\
  (line <> [] ->
   Scan (mkJSONScanner line e current) = (true, mkJSONScanner [] e line)) /\
  Scan (mkJSONScanner [] e current) = (false, mkJSONScanner [] e current).
Proof.
  intros Hline. unfold Scan. simpl. split; [|split].
  - by rewrite Scan_loop_line.
  - intros Hne. by rewrite Scan_loop_last.
  - done.
Qed.

(** ** What an append does to the world *)

Section AppendFacts.
Context `{JSONCodec}.

Lemma File_Create_error l username actionString extraMsg epochTimestampSec orgID
    metadata now os e os' :
  FileAuditLogger.CreateAuditEvent l username actionString extraMsg
    epochTimestampSec orgID metadata now os = (Some e, os') ->
  os' = os.
Proof.
  unfold FileAuditLogger.CreateAuditEvent.
  destruct (json_MarshalEvent _); [|by intros [= _ <-]].
  destruct (os_Open _ _); [|by intros [= _ <-]].
  destruct (file_Write _ _ _); [done|by intros [= _ <-]].
Qed.

Lemma DB_Create_error l username actionString extraMsg epochTimestampSec orgID
    metadata now os e os' :
  DBAuditLogger.CreateAuditEvent l username actionString extraMsg
    epochTimestampSec orgID metadata now os = (Some e, os') ->
  os' = os.
Proof.
  unfold DBAuditLogger.CreateAuditEvent.
  destruct (if not_nil metadata then _ else _); [|by intros [= _ <-]].
  destruct (db_Exec_insert _ _ _); [done|by intros [= _ <-]].
Qed.

(** X2. [FileAuditLogger.CreateAuditEvent] only appends: when it returns an
    error nothing has changed; when it succeeds its log file is what it was
    followed by the serialized record and a newline. It never touches
    another file or a database. *)
Theorem File_CreateAuditEvent_only_appends l username actionString extraMsg
    epochTimestampSec orgID metadata now os err os' :
  FileAuditLogger.CreateAuditEvent l username actionString extraMsg
    epochTimestampSec orgID metadata now os = (err, os') ->
  (err <> None -> os' = os) /\
  (err = None ->
   exists contents eventJSON,
     files os !! FileAuditLogger.filePath l = Some contents /\
     json_MarshalEvent (new_event username actionString extraMsg epochTimestampSec
                                  orgID metadata now) = Some eventJSON /\
     files os' !! FileAuditLogger.filePath l =
       Some (contents ++ eventJSON ++ [x0a])) /\
  (forall name, name <> FileAuditLogger.filePath l ->
                files os' !! name = files os !! name) /\
  databases os' = databases os.
Proof.
  intros Hcreate. destruct err as [e|].
  - apply File_Create_error in Hcreate as ->. by repeat split.
  - split; [done|]. revert Hcreate.
    unfold FileAuditLogger.CreateAuditEvent, new_event.
    destruct (json_MarshalEvent _) as [eventJSON|]; [|done].
    destruct (os_Open _ os); [|done]. unfold file_Write.
    destruct (disk_full os); [done|].
    destruct (files os !! FileAuditLogger.filePath l) as [contents|] eqn:Hfile;
      [|done].
    intros [= <-]. simpl. repeat split.
    + intros _. exists contents, eventJSON. by rewrite lookup_insert_eq.
    + intros name Hname. by rewrite lookup_insert_ne.
Qed.






End AppendFacts.

(** ** The constructors and the registry *)

(** X7. [NewDBAuditLogger] fails, changing nothing, when the statement
    that creates the table fails. Otherwise it returns a logger on the data
    source; a table that exists keeps its rows, a missing one is created
    empty, and no other database and no file is touched. *)
Theorem NewDBAuditLogger_cases dbPath os :
  (dbPath ∈ db_unavailable os ->
   NewDBAuditLogger dbPath os = (None, Some ErrCreateTable, os)) /\
  (dbPath ∉ db_unavailable os ->
   exists os',
     NewDBAuditLogger dbPath os = (Some (DBAuditLogger.mk dbPath), None, os') /\
     databases os' !! dbPath = Some (default [] (databases os !! dbPath)) /\
     (forall dsn, dsn <> dbPath -> databases os' !! dsn = databases os !! dsn) /\
     files os' = files os /\ db_unavailable os' = db_unavailable os).
Proof.
  unfold NewDBAuditLogger, sql_Open, db_Exec_create. split; intros Hdb.
  - by rewrite decide_True.
  - rewrite decide_False by done.
    destruct (databases os !! dbPath) as [table|] eqn:Htable.
    + exists os. by rewrite Htable.
    + eexists. split; [done|]. simpl. rewrite lookup_insert_eq.
      repeat split. intros dsn Hdsn. by rewrite lookup_insert_ne.
Qed.

(** X8. Initializing again with the configuration of the active store,
    when that store answers, changes nothing: the log file is not
    truncated and the table is not created anew, so no record is lost. *)
Theorem InitAuditLogger_again config st :
  store_ok (loggerInstance st) (env st) ->
  (forall l, loggerInstance st = File_AuditLogger (Some l) ->
             config !! "filePath" = Some (FileAuditLogger.filePath l) ->
             InitAuditLogger FileLoggerType config st = (None, st)) /\
  (forall l, loggerInstance st = DB_AuditLogger (Some l) ->
             config !! "dbPath" = Some (DBAuditLogger.db l) ->
             InitAuditLogger DBLoggerType config st = (None, st)).
Proof.
  intros Hok. destruct st as [logger os]. simpl in *.
  split; intros [p] -> Hconfig; unfold InitAuditLogger; simpl in *; rewrite Hconfig.
  - destruct Hok as (contents & Hopen & _).
    unfold NewFileAuditLogger, os_Stat. unfold os_Open in Hopen.
    destruct (decide (p ∈ stat_errors os)); [done|]. by rewrite Hopen.
  - destruct Hok as (Havail & table & Htable & _).
    unfold NewDBAuditLogger, sql_Open, db_Exec_create.
    rewrite decide_False by done. by rewrite Htable.
Qed.

(** X9. When [InitAuditLogger] returns no error, [loggerInstance] is a
    logger of the type asked for on the path of the configuration, whatever
    it was before, and [GetAuditLogger] returns it without an error. The
    log file is then not reported missing, and the database exists and
    answers. *)
Theorem InitAuditLogger_success loggerType config st st' :
  InitAuditLogger loggerType config st = (None, st') ->
  GetAuditLogger st' = (loggerInstance st', None) /\
  ((loggerType = FileLoggerType /\
    exists filePath,
      config !! "filePath" = Some filePath /\
      loggerInstance st' = File_AuditLogger (Some (FileAuditLogger.mk filePath)) /\
      os_Stat filePath (env st') <> StatNotExist) \/
   (loggerType = DBLoggerType /\
    exists dbPath,
      config !! "dbPath" = Some dbPath /\
      loggerInstance st' = DB_AuditLogger (Some (DBAuditLogger.mk dbPath)) /\
      is_Some (databases (env st') !! dbPath) /\
      dbPath ∉ db_unavailable (env st'))).
Proof.
  unfold InitAuditLogger.
  destruct (String.eqb_spec loggerType FileLoggerType) as [->|_].
  { destruct (config !! "filePath") as [filePath|]; [|done].
    unfold NewFileAuditLogger.
    destruct (os_Stat filePath (env st)) eqn:Hstat; simpl.
    - intros [= <-]. split; [done|]. left. split; [done|].
      exists filePath. simpl. by rewrite Hstat.
    - destruct (os_Create filePath (env st)) as [os'|] eqn:Hcreate; [|done].
      intros [= <-]. split; [done|]. left. split; [done|].
      exists filePath. simpl.
      destruct (os_Stat_after_Create _ _ _ Hstat Hcreate) as [-> _]. done.
    - intros [= <-]. split; [done|]. left. split; [done|].
      exists filePath. simpl. by rewrite Hstat. }
  destruct (String.eqb_spec loggerType DBLoggerType) as [->|_]; [|done].
  destruct (config !! "dbPath") as [dbPath|]; [|done].
  unfold NewDBAuditLogger, sql_Open, db_Exec_create.
  destruct (decide (dbPath ∈ db_unavailable (env st))); [done|].
  destruct (databases (env st) !! dbPath) as [table|] eqn:Htable.
  - intros [= <-]. split; [done|]. right. split; [done|].
    exists dbPath. simpl. by rewrite Htable.
  - intros [= <-]. split; [done|]. right. split; [done|].
    exists dbPath. simpl. by rewrite lookup_insert_eq.
Qed.

(** X10. The configuration errors of [InitAuditLogger]: a type other than
    "file" and "db" is refused with the error that names it, and a type
    whose path key is missing with the error of that key; the state stays
    as it was. *)
Theorem InitAuditLogger_configuration_errors loggerType config st :
  (loggerType <> FileLoggerType -> loggerType <> DBLoggerType ->
   InitAuditLogger loggerType config st =
     (Some (ErrUnsupportedLoggerType loggerType), st)) /\
  (config !! "filePath" = None ->
   InitAuditLogger FileLoggerType config st = (Some ErrFilePathNotProvided, st)) /\
  (config !! "dbPath" = None ->
   InitAuditLogger DBLoggerType config st = (Some ErrDBPathNotProvided, st)).
Proof.
  unfold InitAuditLogger. repeat split.
  - intros Hfile Hdb. apply String.eqb_neq in Hfile, Hdb. by rewrite Hfile, Hdb.
  - intros Hkey. simpl. by rewrite Hkey.
  - intros Hkey. simpl. by rewrite Hkey.
Qed.

Section RegistryProperties.
Context `{JSONCodec}.




(** X12. Switching to a new database: when the data source answers and
    holds no database yet, [InitAuditLogger] for the relational store
    succeeds whatever store was active before, every query then returns no
    record, and the files, the log of a former file store among them, are
    as they were. *)
Theorem new_database_is_empty config dbPath st :
  config !! "dbPath" = Some dbPath ->
  dbPath ∉ db_unavailable (env st) ->
  databases (env st) !! dbPath = None ->
  exists st1,
    InitAuditLogger DBLoggerType config st = (None, st1) /\
    files (env st1) = files (env st) /\
    forall tenant startEpochSec endEpochSec,
      ReadAuditEvents tenant startEpochSec endEpochSec st1 = Returns ([], None).
Proof.
  intros Hconfig Havail Hnone. eexists. split; [|split].
  - unfold InitAuditLogger. simpl. rewrite Hconfig.
    unfold NewDBAuditLogger, sql_Open, db_Exec_create.
    rewrite decide_False by done. by rewrite Hnone.
  - done.
  - intros tenant startEpochSec endEpochSec.
    unfold ReadAuditEvents, GetAuditLogger. simpl.
    unfold DBAuditLogger.ReadAuditEvents, db_Query. simpl.
    rewrite decide_False by done. rewrite lookup_insert_eq. simpl.
    by destruct (endEpochSec >? 0)%Z.
Qed.

Lemma scan_rows_null rows events :
  Exists (fun row => extra_msg row = None) rows ->
  DBAuditLogger.scan_rows rows events = ([], Some ErrScanRow).
Proof.
  intros Hrows. revert events.
  induction Hrows as [row rows Hrow|row rows _ IH]; intros events; simpl.
  - by rewrite Hrow.
  - destruct (extra_msg row); [apply IH|done].
Qed.

(** X13. [DBAuditLogger.ReadAuditEvents] depends on the selected rows only:
    when each of them has a message it returns one record for each, in
    time order, whatever the other rows hold; when one of them has NULL as
    its message it returns the scan error and no record at all. *)
Theorem DB_ReadAuditEvents_scans_the_selected_rows l orgID startEpochSec endEpochSec
    os table :
  DBAuditLogger.db l ∉ db_unavailable os ->
  databases os !! DBAuditLogger.db l = Some table ->
  let rows := select (query_of orgID startEpochSec endEpochSec) table in
  (Forall scannable rows ->
   DBAuditLogger.ReadAuditEvents l orgID startEpochSec endEpochSec os =
     (event_of_row <$> rows, None)) /\
  (Exists (fun row => extra_msg row = None) rows ->
   DBAuditLogger.ReadAuditEvents l orgID startEpochSec endEpochSec os =
     ([], Some ErrScanRow)).
Proof.
  intros Havail Htable rows.
  assert (Hread : DBAuditLogger.ReadAuditEvents l orgID startEpochSec endEpochSec os =
                  DBAuditLogger.scan_rows rows []).
  { unfold DBAuditLogger.ReadAuditEvents, db_Query.
    rewrite decide_False by done. rewrite Htable. simpl. subst rows.
    unfold query_of. by destruct (endEpochSec >? 0)%Z. }
  rewrite Hread. split; intros Hrows.
  - by rewrite scan_rows_spec.
  - by apply scan_rows_null.
Qed.

(** X14. Metadata that cannot be read does not cost the row: a selected row
    whose metadata column is NULL, empty or not a JSON text is returned as
    a record with its five other columns and nil metadata. *)
Theorem row_with_unreadable_metadata_is_returned l orgID startEpochSec endEpochSec
    os row extraMsg :
  store_ok (DB_AuditLogger (Some l)) os ->
  In row (default [] (databases os !! DBAuditLogger.db l)) ->
  extra_msg row = Some extraMsg ->
  where_clause (query_of orgID startEpochSec endEpochSec) row = true ->
  (metadata row = None \/ metadata row = Some EmptyString \/
   exists text, metadata row = Some text /\
                json_Unmarshal (list_byte_of_string text) = None) ->
  exists events,
    DBAuditLogger.ReadAuditEvents l orgID startEpochSec endEpochSec os =
      (events, None) /\
    In (mkAuditEvent (username row) (action_string row) extraMsg
                     (epoch_timestamp_sec row) (org_id row) JNull) events.
Proof.
  intros (Havail & table & Htable & Hrows) Hin Hextra Hwhere Hmeta.
  rewrite Htable in Hin. simpl in Hin.
  rewrite (DB_ReadAuditEvents_spec _ _ _ _ _ _ Havail Htable Hrows).
  eexists. split; [done|]. apply in_map_iff. exists row. split.
  - unfold event_of_row, DBAuditLogger.scan_row. rewrite Hextra. simpl.
    destruct Hmeta as [->|[->|(text & -> & Htext)]]; [done|done|].
    rewrite Htext. by destruct (negb _).
  - apply In_order_by_ts, filter_In. done.
Qed.

End RegistryProperties.

(** ** The adapter *)

(** X15. The identity [WithAuditContext] puts in the context of a request
    is the identity the adapter reads from it; the rest of the request and
    the other values of the context are as they were. *)
Theorem WithAuditContext_is_read_back r username orgID :
  let r' := WithAuditContext r username orgID in
  getUsernameFromContext (Context r') = username /\
  getOrgIDFromContext (Context r') = orgID /\
  Method r' = Method r /\ URL_Path r' = URL_Path r /\
  RequestURI r' = RequestURI r /\ UserAgent r' = UserAgent r /\
  RemoteAddr r' = RemoteAddr r /\
  forall key, key <> AuditUserKey -> key <> AuditOrgIDKey ->
              Context r' !! key = Context r !! key.
Proof.
  unfold WithAuditContext, getUsernameFromContext, getOrgIDFromContext. simpl.
  repeat split.
  - rewrite lookup_insert_ne by done. by rewrite lookup_insert_eq.
  - by rewrite lookup_insert_eq.
  - intros key Huser Horg. by rewrite !lookup_insert_ne.
Qed.

Lemma append_cons c s t : String c s +:+ t = String c (s +:+ t).
Proof. reflexivity. Qed.

Lemma append_nil_l t : EmptyString +:+ t = t.
Proof. reflexivity. Qed.

Lemma Split_space_length s :
  length (strings_Split_space s) = S (count_spaces s).
Proof.
  induction s as [|c s IH]; [done|]. simpl.
  destruct (Ascii.eqb c " "); simpl; [by rewrite IH|].
  destruct (strings_Split_space s); simpl in *; lia.
Qed.

Lemma Split_space_none s :
  count_spaces s = 0 -> strings_Split_space s = [s].
Proof.
  induction s as [|c s IH]; [done|]. simpl.
  destruct (Ascii.eqb c " "); [done|]. simpl. intros Hs. by rewrite IH.
Qed.

Lemma Split_space_two m p :
  count_spaces m = 0 -> count_spaces p = 0 ->
  strings_Split_space (m +:+ " " +:+ p) = [m; p].
Proof.
  intros Hm Hp. induction m as [|c m IH].
  - rewrite append_nil_l, append_cons, append_nil_l. simpl.
    by rewrite Split_space_none.
  - rewrite append_cons. simpl in *.
    destruct (Ascii.eqb c " "); [done|]. by rewrite IH.
Qed.

Lemma length_append s t :
  String.length (s +:+ t) = String.length s + String.length t.
Proof.
  induction s as [|c s IH]; [done|]. rewrite append_cons. simpl. by rewrite IH.
Qed.

Lemma substring_append_l s t :
  substring 0 (String.length s) (s +:+ t) = s.
Proof.
  induction s as [|c s IH].
  - rewrite append_nil_l. by destruct t.
  - rewrite append_cons. simpl. by rewrite IH.
Qed.

Lemma substring_append_r s t :
  substring (String.length s) (String.length t) (s +:+ t) = t.
Proof.
  induction s as [|c s IH].
  - rewrite append_nil_l. simpl. induction t as [|c t IHt]; [done|].
    simpl. by rewrite IHt.
  - rewrite append_cons. simpl. exact IH.
Qed.

Lemma HasSuffix_append s suffix : strings_HasSuffix (s +:+ suffix) suffix = true.
Proof.
  unfold strings_HasSuffix. rewrite length_append.
  replace (String.length s + String.length suffix - String.length suffix)
    with (String.length s) by lia.
  rewrite substring_append_r, String.eqb_refl, andb_true_r.
  apply Nat.leb_le. lia.
Qed.

Lemma TrimSuffix_append s suffix : strings_TrimSuffix (s +:+ suffix) suffix = s.
Proof.
  unfold strings_TrimSuffix. rewrite HasSuffix_append, length_append.
  replace (String.length s + String.length suffix - String.length suffix)
    with (String.length s) by lia.
  apply substring_append_l.
Qed.

Lemma substring_all s : substring 0 (String.length s) s = s.
Proof. induction s as [|c s IH]; [done|]. simpl. by rewrite IH. Qed.

Lemma substring_split n s :
  n <= String.length s ->
  s = substring 0 n s +:+ substring n (String.length s - n) s.
Proof.
  revert n. induction s as [|c s IH]; intros [|n] Hn; simpl in *; try lia.
  - done.
  - by rewrite append_nil_l, substring_all.
  - rewrite append_cons. f_equal. apply IH. lia.
Qed.

Lemma HasSuffix_inv s suffix :
  strings_HasSuffix s suffix = true -> exists s', s = s' +:+ suffix.
Proof.
  unfold strings_HasSuffix. intros [Hlen Hsub]%andb_true_iff.
  apply Nat.leb_le in Hlen. apply String.eqb_eq in Hsub.
  exists (substring 0 (String.length s - String.length suffix) s).
  pose proof (substring_split (String.length s - String.length suffix) s) as Hsplit.
  replace (String.length s - (String.length s - String.length suffix))
    with (String.length suffix) in Hsplit by lia.
  rewrite Hsub in Hsplit. apply Hsplit. lia.
Qed.

Lemma prefix_append s path :
  String.prefix s path = true <-> exists rest, path = s +:+ rest.
Proof.
  revert path. induction s as [|c s IH]; intros path.
  - split; [|by destruct path]. intros _. by exists path.
  - destruct path as [|c' path]; simpl.
    + split; [done|]. intros [rest Hrest]. by rewrite append_cons in Hrest.
    + destruct (ascii_dec c c') as [->|Hc].
      * rewrite IH. split; intros [rest Hrest]; exists rest.
        -- by rewrite append_cons, Hrest.
        -- rewrite append_cons in Hrest. by injection Hrest.
      * split; [done|]. intros [rest Hrest]. rewrite append_cons in Hrest.
        by injection Hrest.
Qed.

Lemma count_spaces_append s t :
  count_spaces (s +:+ t) = count_spaces s + count_spaces t.
Proof.
  induction s as [|c s IH]; [done|]. rewrite append_cons. simpl. rewrite IH. lia.
Qed.

Lemma method_matches methodPattern method :
  negb (methodPattern =? "*")%string && negb (methodPattern =? method)%string = false
  <-> methodPattern = "*" \/ methodPattern = method.
Proof.
  destruct (String.eqb_spec methodPattern "*"), (String.eqb_spec methodPattern method);
    simpl; intuition congruence.
Qed.

(** X16. A wildcard entry: the pattern "M P*", where M and P hold no space,
    matches the requests whose method is M, or any method when M is "*",
    and whose path starts with P, and no other request. *)
Theorem wildcard_pattern_matches_by_prefix methodPattern prefix method path :
  count_spaces methodPattern = 0 -> count_spaces prefix = 0 ->
  pattern_matches (methodPattern +:+ " " +:+ (prefix +:+ "*")) method path = true <->
  (methodPattern = "*" \/ methodPattern = method) /\
  exists rest, path = prefix +:+ rest.
Proof.
  intros Hm Hp. unfold pattern_matches.
  rewrite Split_space_two by (done || by rewrite count_spaces_append, Hp).
  rewrite HasSuffix_append, TrimSuffix_append. unfold strings_HasPrefix.
  rewrite <- prefix_append, <- method_matches.
  destruct (negb _ && negb _); intuition congruence.
Qed.

(** X17. An exact entry: the pattern "M P", where M and P hold no space and
    P does not end in "*", matches the requests whose method is M, or any
    method when M is "*", and whose path is P, and no other request. *)
Theorem exact_pattern_matches_the_path methodPattern pathPattern method path :
  count_spaces methodPattern = 0 -> count_spaces pathPattern = 0 ->
  (forall prefix, pathPattern <> prefix +:+ "*") ->
  pattern_matches (methodPattern +:+ " " +:+ pathPattern) method path = true <->
  (methodPattern = "*" \/ methodPattern = method) /\ path = pathPattern.
Proof.
  intros Hm Hp Hstar. unfold pattern_matches. rewrite Split_space_two by done.
  destruct (strings_HasSuffix pathPattern "*") eqn:Hsuffix.
  { apply HasSuffix_inv in Hsuffix as [prefix Hprefix]. by destruct (Hstar prefix). }
  rewrite <- method_matches.
  destruct (negb _ && negb _); [intuition congruence|].
  rewrite String.eqb_eq. intuition congruence.
Qed.

(** X18. An entry whose pattern does not hold exactly one space is never
    used: it matches no request, and a mapping made of such entries gives
    every request the generic label. *)
Theorem malformed_patterns_never_match method path :
  (forall pattern, count_spaces pattern <> 1 ->
                   pattern_matches pattern method path = false) /\
  (forall entries,
     Forall (fun entry => count_spaces (fst entry) <> 1) entries ->
     action_label entries method path = method +:+ " request to " +:+ path).
Proof.
  assert (Hone : forall pattern, count_spaces pattern <> 1 ->
                                 pattern_matches pattern method path = false).
  { intros pattern Hcount. unfold pattern_matches.
    pose proof (Split_space_length pattern) as Hlen.
    destruct (strings_Split_space pattern) as [|? [|? [|? ?]]]; try done.
    simpl in Hlen. lia. }
  split; [done|]. intros entries Hentries. unfold action_label.
  assert (Hfind : find_action entries method path = EmptyString).
  { induction Hentries as [|[pattern action] entries Hentry _ IH]; [done|].
    simpl in *. by rewrite Hone. }
  by rewrite Hfind.
Qed.

(** X19. The response wrapper: after the handler's calls of [WriteHeader],
    [statusCode] is the code of the last call, and 200 when there was none,
    and every call has reached the wrapped writer, in order. *)
Theorem responseWriter_keeps_the_last_status w codes :
  let rw := foldl WriteHeader (new_responseWriter w) codes in
  statusCode rw = List.last codes 200%Z /\ ResponseWriter rw = w ++ codes.
Proof.
  unfold new_responseWriter. generalize 200%Z as code. revert w.
  induction codes as [|c codes IH]; intros w code.
  - simpl. by rewrite app_nil_r.
  - destruct (IH (w ++ [c]) c) as [Hstatus Hcodes].
    change (foldl WriteHeader (mkResponseWriter w code) (c :: codes))
      with (foldl WriteHeader (mkResponseWriter (w ++ [c]) c) codes).
    rewrite Hcodes, <- app_assoc. split; [|done].
    rewrite Hstatus. clear. revert c code.
    induction codes as [|c' codes IH]; intros c code; [done|].
    change (List.last (c :: c' :: codes) code) with (List.last (c' :: codes) code).
    destruct codes as [|c'' codes]; [done|].
    by rewrite <- (IH c' c), <- (IH c' code).
Qed.

Section AdapterFacts.
Context `{JSONCodec}.
Variable Duration_String : Z -> string.

Lemma facade_returns username actionString extraMsg epochTimestampSec orgID metadata
    now st :
  loggerInstance st <> File_AuditLogger None ->
  loggerInstance st <> DB_AuditLogger None ->
  exists err st',
    CreateAuditEvent username actionString extraMsg epochTimestampSec orgID metadata
      now st = Returns (err, st') /\
    loggerInstance st' = loggerInstance st /\
    (is_Some err -> st' = st).
Proof.
  intros Hfile Hdb. unfold CreateAuditEvent, GetAuditLogger.
  destruct st as [[|[l|]|[l|]] os]; simpl in *; try done.
  - eauto.
  - destruct (FileAuditLogger.CreateAuditEvent _ _ _ _ _ _ _ _ _) as [err os'] eqn:Hcreate.
    exists err, (mkState (File_AuditLogger (Some l)) os'). repeat split.
    intros [e ->]. by rewrite (File_Create_error _ _ _ _ _ _ _ _ _ _ _ Hcreate).
  - destruct (DBAuditLogger.CreateAuditEvent _ _ _ _ _ _ _ _ _) as [err os'] eqn:Hcreate.
    exists err, (mkState (DB_AuditLogger (Some l)) os'). repeat split.
    intros [e ->]. by rewrite (DB_Create_error _ _ _ _ _ _ _ _ _ _ _ Hcreate).
Qed.

Lemma facade_panics username actionString extraMsg epochTimestampSec orgID metadata
    now st :
  loggerInstance st = File_AuditLogger None \/ loggerInstance st = DB_AuditLogger None ->
  CreateAuditEvent username actionString extraMsg epochTimestampSec orgID metadata
    now st = Panics.
Proof.
  unfold CreateAuditEvent, GetAuditLogger. by intros [-> | ->].
Qed.

(** X20. The adapter never reports what the store did. It returns, with
    the registry as the handler left it, unless the registry holds a nil
    pointer of a store, and then it panics after the handler has run. Before
    any initialization it leaves the state exactly as the handler did. *)
Theorem AuditMiddleware_returns_unless_nil_pointer entries next r duration now st :
  let st1 := (next r st).2 in
  (loggerInstance st1 <> File_AuditLogger None ->
   loggerInstance st1 <> DB_AuditLogger None ->
   exists st2,
     AuditMiddleware Duration_String entries next r duration now st = Returns st2 /\
     loggerInstance st2 = loggerInstance st1) /\
  (loggerInstance st1 = nil_AuditLogger ->
   AuditMiddleware Duration_String entries next r duration now st = Returns st1) /\
  (loggerInstance st1 = File_AuditLogger None \/
   loggerInstance st1 = DB_AuditLogger None ->
   AuditMiddleware Duration_String entries next r duration now st = Panics).
Proof.
  unfold AuditMiddleware. destruct (next r st) as [codes st1]. simpl.
  split; [|split].
  - intros Hfile Hdb.
    match goal with
    | |- context [CreateAuditEvent ?u ?a ?x ?ts ?org ?md ?now' st1] =>
        destruct (facade_returns u a x ts org md now' st1 Hfile Hdb)
          as (err & st2 & -> & Hlogger & _)
    end.
    eauto.
  - intros Hnil. destruct (not_initialized st1 Hnil) as (_ & -> & _). done.
  - intros Hptr. by rewrite facade_panics.
Qed.


(** X29. A request whose context holds no user name of type string is
    recorded under the user "unknown": on a store that answers the adapter
    adds one record with that user. *)
Theorem missing_user_is_recorded_as_unknown entries next r duration now st :
  let st1 := (next r st).2 in
  (forall username, Context r !! AuditUserKey <> Some (ctx_string username)) ->
  store_ok (loggerInstance st1) (env st1) -> disk_full (env st1) = false ->
  (forall e, is_Some (json_MarshalEvent e)) ->
  getUsernameFromContext (Context r) = "unknown" /\
  exists st2 event,
    AuditMiddleware Duration_String entries next r duration now st = Returns st2 /\
    Username event = "unknown" /\
    OrgID event = getOrgIDFromContext (Context r) /\
    stored (loggerInstance st2) (env st2) =
      stored (loggerInstance st1) (env st1) ++ [event].
Proof.
  intros st1 Hctx Hok Hfull Hcodec.
  assert (Huser : getUsernameFromContext (Context r) = "unknown").
  { unfold getUsernameFromContext.
    destruct (Context r !! AuditUserKey) as [[username| | |]|] eqn:Hlookup; try done.
    by destruct (Hctx username). }
  split; [done|]. unfold AuditMiddleware. rewrite Huser.
  subst st1. destruct (next r st) as [codes st1]. simpl in *.
  match goal with
  | |- context [CreateAuditEvent ?u ?a ?x ?ts ?org ?md ?now' st1] =>
      destruct (facade_Create_stored u a x ts org md now' st1 Hok Hfull)
        as (err & st2 & -> & Hlogger & _ & Hstored);
      destruct (Hcodec (new_event u a x ts org md now')) as [eventJSON Hm];
      rewrite Hm in Hstored;
      exists st2, (new_event u a x ts org md now')
  end.
  by rewrite Hlogger in *.
Qed.

End AdapterFacts.

(** ** The example server *)

Section ServerFacts.
Context `{JSONCodec}.


(** X22. The handlers of login, index deletion and dashboard creation
    answer a request that is not a POST with status 405 and the text
    "Method not allowed"; they log nothing and leave the registry and the
    store as they are. The handler of logout does not look at the request:
    it treats every method alike. *)
Theorem handlers_refuse_other_methods idTime r form now clock w st :
  Method r <> MethodPost ->
  let refused :=
    Returns (http_Error w "Method not allowed" StatusMethodNotAllowed, [], st) in
  handleLogin r form now clock w st = refused /\
  handleDeleteIndex r form now clock w st = refused /\
  handleCreateDashboard idTime r form now clock w st = refused /\
  status (http_Error no_response "Method not allowed" StatusMethodNotAllowed)
    = Some 405%Z /\
  forall r', handleLogout r form now clock w st = handleLogout r' form now clock w st.
Proof.
  intros Hmethod. apply String.eqb_neq in Hmethod.
  unfold handleLogin, handleDeleteIndex, handleCreateDashboard. by rewrite Hmethod.
Qed.





Lemma main_InitAuditLogger_logger st st1 :
  main_InitAuditLogger st = (None, st1) ->
  loggerInstance st1 = File_AuditLogger (Some (FileAuditLogger.mk "audit.log")).
Proof.
  unfold main_InitAuditLogger, InitAuditLogger. simpl.
  rewrite lookup_singleton_eq. unfold NewFileAuditLogger.
  destruct (os_IsNotExist _); [|by intros [= <-]].
  destruct (os_Create _ _); [by intros [= <-]|done].
Qed.

(** X28. The example server never hits the nil pointer of a failed
    construction: [main] goes on only when [InitAuditLogger] returned no
    error, the registry then holds the logger of "audit.log", and from any
    state with that registry every handler returns and leaves the registry
    as it is, whatever the request and whatever the store does. *)
Theorem handlers_return_after_main idTime st st1 :
  main_InitAuditLogger st = (None, st1) ->
  loggerInstance st1 = File_AuditLogger (Some (FileAuditLogger.mk "audit.log")) /\
  forall st2 handler r form now clock w,
    loggerInstance st2 = loggerInstance st1 ->
    In handler (handlers idTime) ->
    exists w' errs st3,
      handler r form now clock w st2 = Returns (w', errs, st3) /\
      loggerInstance st3 = loggerInstance st2.
Proof.
  intros Hmain%main_InitAuditLogger_logger. split; [done|].
  intros st2 handler r form now clock w Hlogger Hin. rewrite Hmain in Hlogger.
  assert (Hfile : loggerInstance st2 <> File_AuditLogger None) by congruence.
  assert (Hdb : loggerInstance st2 <> DB_AuditLogger None) by congruence.
  unfold handlers in Hin. simpl in Hin.
  destruct Hin as [<-|[<-|[<-|[<-|[]]]]];
    unfold handleLogin, handleLogout, handleDeleteIndex, handleCreateDashboard;
    try destruct (negb (Method r =? MethodPost)%string); eauto;
    cbv zeta;
    match goal with
    | |- context [CreateAuditEvent ?u ?a ?x ?ts ?org ?md ?now' st2] =>
        destruct (facade_returns u a x ts org md now' st2 Hfile Hdb)
          as (err & st3 & -> & Hlogger3 & _)
    end;
    simpl; eauto.
Qed.

End ServerFacts.

(** ** Queries *)

Lemma insert_by_ts_first row rows :
  Forall (ts_le row) rows -> insert_by_ts row rows = row :: rows.
Proof.
  intros [|row' rows' Hle _]; simpl; [done|].
  unfold ts_le in Hle. by apply Z.leb_le in Hle as ->.
Qed.

Lemma ts_le_trans : Relations_1.Transitive ts_le.
Proof. intros r1 r2 r3. unfold ts_le. lia. Qed.

Lemma filter_insert_by_ts (f : Row -> bool) row rows :
  Sorted ts_le rows ->
  List.filter f (insert_by_ts row rows) =
    if f row then insert_by_ts row (List.filter f rows) else List.filter f rows.
Proof.
  intros Hsorted. apply (Sorted_StronglySorted ts_le_trans) in Hsorted.
  induction Hsorted as [|row' rows' Hrows IH Hall]; [done|].
  cbn [insert_by_ts].
  destruct (epoch_timestamp_sec row <=? epoch_timestamp_sec row')%Z eqn:Hle.
  - change (List.filter f (row :: row' :: rows'))
      with (if f row then row :: List.filter f (row' :: rows')
            else List.filter f (row' :: rows')).
    destruct (f row); [|done].
    rewrite insert_by_ts_first; [done|].
    apply Z.leb_le in Hle.
    assert (Hrow : Forall (ts_le row) (row' :: rows')).
    { constructor; [done|]. eapply Forall_impl; [exact Hall|].
      intros r. unfold ts_le. simpl. lia. }
    apply List.Forall_forall. intros r [Hin _]%filter_In.
    by apply (proj1 (List.Forall_forall _ _) Hrow).
  - simpl. rewrite IH. destruct (f row'), (f row); simpl; try done.
    by rewrite Hle.
Qed.

Lemma filter_order_by_ts (f : Row -> bool) rows :
  List.filter f (order_by_ts rows) = order_by_ts (List.filter f rows).
Proof.
  induction rows as [|row rows IH]; [done|].
  change (order_by_ts (row :: rows)) with (insert_by_ts row (order_by_ts rows)).
  rewrite filter_insert_by_ts by apply order_by_ts_sorted.
  rewrite IH. simpl. by destruct (f row).
Qed.

Section QueryFacts.
Context `{JSONCodec}.

(** X25. A narrower query gives the part of the wider answer that lies in
    its range: for both stores, when the range of a second query of the same
    tenant lies within the range of the first, the second answer is the
    first answer without the records outside the second range, in the same
    order. *)
Theorem narrower_query_filters_the_answer logger orgID startEpochSec endEpochSec
    startEpochSec' endEpochSec' os events :
  store_ok logger os ->
  (startEpochSec <= startEpochSec')%Z -> (0 < endEpochSec')%Z ->
  (endEpochSec' <= endEpochSec)%Z \/ endEpochSec = 0%Z ->
  call_ReadAuditEvents logger orgID startEpochSec endEpochSec os =
    Returns (events, None) ->
  call_ReadAuditEvents logger orgID startEpochSec' endEpochSec' os =
    Returns (List.filter (in_range startEpochSec' endEpochSec') events, None).
Proof.
  intros Hok Hstart Hend' Hend.
  destruct logger as [|[l|]|[l|]]; try done.
  - rewrite !call_Read_file by done. intros [= <-]. do 2 f_equal.
    rewrite <- filter_andb. apply filter_ext. intros event.
    unfold file_filter, in_range.
    destruct (OrgID event =? orgID)%Z; simpl; [|done].
    destruct (Z.geb_spec (EpochTimestampSec event) startEpochSec),
             (Z.geb_spec (EpochTimestampSec event) startEpochSec'),
             (Z.leb_spec startEpochSec' (EpochTimestampSec event)),
             (Z.leb_spec (EpochTimestampSec event) endEpochSec),
             (Z.leb_spec (EpochTimestampSec event) endEpochSec'),
             (Z.eqb_spec endEpochSec 0), (Z.eqb_spec endEpochSec' 0);
      simpl; try done; lia.
  - destruct (call_Read_db l orgID startEpochSec endEpochSec os Hok)
      as (table & Htable & _ & ->).
    destruct (call_Read_db l orgID startEpochSec' endEpochSec' os Hok)
      as (table' & Htable' & _ & ->).
    assert (table' = table) as -> by congruence.
    intros [= <-]. do 2 f_equal.
    rewrite <- (filter_fmap_event_of_row
                  (fun row => in_range startEpochSec' endEpochSec' (event_of_row row)))
      by done.
    f_equal. rewrite filter_order_by_ts. f_equal.
    rewrite <- filter_andb. apply filter_ext. intros row.
    unfold db_filter, in_range.
    destruct (OrgID (event_of_row row) =? orgID)%Z; simpl; [|done].
    destruct (Z.geb_spec (EpochTimestampSec (event_of_row row)) startEpochSec),
             (Z.geb_spec (EpochTimestampSec (event_of_row row)) startEpochSec'),
             (Z.leb_spec startEpochSec' (EpochTimestampSec (event_of_row row))),
             (Z.leb_spec (EpochTimestampSec (event_of_row row)) endEpochSec),
             (Z.leb_spec (EpochTimestampSec (event_of_row row)) endEpochSec'),
             (Z.gtb_spec endEpochSec 0), (Z.gtb_spec endEpochSec' 0);
      simpl; try done; lia.
Qed.

(** *** The read loop of the file store *)

Lemma Scan_shortens scanner scanner' :
  Scan scanner = (true, scanner') ->
  length (file scanner') < length (file scanner) /\ Err scanner' = Err scanner.
Proof.
  unfold Scan. pose proof (Scan_loop_split (file scanner) []) as Hscan.
  destruct (Scan_loop (file scanner) []) as [[line|] file']; [|done].
  intros [= <-]. simpl. destruct Hscan as [_ [Hlen|(_ & _ & Hline)]]; done.
Qed.

Lemma Scan_loop_end contents line file' :
  Scan_loop contents line = (None, file') -> file' = [].
Proof.
  revert line. induction contents as [|b contents IH]; intros line; simpl.
  - destruct (0 <? length line)%nat; congruence.
  - destruct (Byte.eqb b x0a); [done|]. apply IH.
Qed.

Lemma Scan_end scanner scanner' :
  Scan scanner = (false, scanner') ->
  file scanner' = [] /\ Err scanner' = Err scanner.
Proof.
  unfold Scan.
  destruct (Scan_loop (file scanner) []) as [[line|] file'] eqn:Hloop; [done|].
  intros [= <-]. simpl. split; [|done]. by apply Scan_loop_end in Hloop.
Qed.

Lemma scan_events_unfold fuel orgID startEpochSec endEpochSec scanner events :
  FileAuditLogger.scan_events (S fuel) orgID startEpochSec endEpochSec scanner events =
    let '(more, scanner') := Scan scanner in
    if more then
      match json_UnmarshalEvent (Bytes scanner') with
      | None =>
          FileAuditLogger.scan_events fuel orgID startEpochSec endEpochSec scanner' events
      | Some event =>
          if file_filter orgID startEpochSec endEpochSec event
          then FileAuditLogger.scan_events fuel orgID startEpochSec endEpochSec scanner'
                 (events ++ [event])
          else FileAuditLogger.scan_events fuel orgID startEpochSec endEpochSec scanner'
                 events
      end
    else (events, scanner').
Proof. reflexivity. Qed.

Lemma scan_events_S fuel orgID startEpochSec endEpochSec scanner events :
  length (file scanner) < fuel ->
  FileAuditLogger.scan_events (S fuel) orgID startEpochSec endEpochSec scanner events =
    FileAuditLogger.scan_events fuel orgID startEpochSec endEpochSec scanner events.
Proof.
  revert scanner events. induction fuel as [|fuel IH]; intros scanner events Hfuel;
    [lia|].
  rewrite (scan_events_unfold (S fuel)), (scan_events_unfold fuel).
  destruct (Scan scanner) as [[|] scanner'] eqn:Hscan; [|done].
  apply Scan_shortens in Hscan as [Hlen _].
  assert (length (file scanner') < fuel) by lia.
  destruct (json_UnmarshalEvent _); [|by apply IH].
  destruct (file_filter _ _ _ _); by apply IH.
Qed.

Lemma scan_events_end fuel orgID startEpochSec endEpochSec scanner events :
  length (file scanner) < fuel ->
  let result :=
    FileAuditLogger.scan_events fuel orgID startEpochSec endEpochSec scanner events in
  file result.2 = [] /\ Err result.2 = Err scanner.
Proof.
  revert scanner events. induction fuel as [|fuel IH]; intros scanner events Hfuel;
    [lia|].
  cbv zeta. rewrite scan_events_unfold.
  destruct (Scan scanner) as [[|] scanner'] eqn:Hscan.
  - apply Scan_shortens in Hscan as [Hlen <-].
    assert (length (file scanner') < fuel) by lia.
    destruct (json_UnmarshalEvent _); [|by apply IH].
    destruct (file_filter _ _ _ _); by apply IH.
  - by apply Scan_end in Hscan.
Qed.

(** X26. The read loop of the file store ends at the end of the file: with
    any bound above the number of bytes left, the loop gives the same
    records and the same scanner; it stops because [Scan] returns false on
    an empty rest, and the scanner's error is never set. *)
Theorem read_loop_ends_at_the_end_of_the_file fuel orgID startEpochSec endEpochSec
    scanner events :
  length (file scanner) < fuel ->
  let result :=
    FileAuditLogger.scan_events fuel orgID startEpochSec endEpochSec scanner events in
  result = FileAuditLogger.scan_events (S (length (file scanner))) orgID startEpochSec
             endEpochSec scanner events /\
  file result.2 = [] /\
  Scan result.2 = (false, result.2) /\
  Err result.2 = Err scanner.
Proof.
  intros Hfuel result.
  destruct (scan_events_end fuel orgID startEpochSec endEpochSec scanner events Hfuel)
    as [Hfile Herr].
  fold result in Hfile, Herr. repeat split; try done.
  - subst result. clear Hfile Herr.
    replace fuel with ((fuel - S (length (file scanner))) + S (length (file scanner)))
      by lia.
    generalize (fuel - S (length (file scanner))) as k.
    induction k as [|k IH]; [done|].
    rewrite <- IH. apply scan_events_S. lia.
  - destruct result.2 as [contents e current]. simpl in Hfile. by subst contents.
Qed.

End QueryFacts.

(** ** Examples for the further properties *)

Definition alice_call : call :=
  mkCall "alice" "User logged in" "Login from 192.168.1.1" 1700000000 123 JNull
         1700000500.

Definition os_file_alice : OS := create_step (H:=Go_json) file_logger os0 alice_call.

(** A table with a row whose metadata column is NULL. *)
Definition null_metadata_row : Row :=
  mkRow "alice" "User logged in" (Some "Login from 192.168.1.1") 1700000000 123 None.

Definition os_null_metadata : OS :=
  mkOS ∅ ∅ ∅ false {["audit.db" := [null_metadata_row]]} ∅.





Lemma Scan_delivers_lines_witness :
  let line := list_byte_of_string "{}" in
  let rest := list_byte_of_string "[]" in
  Scan (mkJSONScanner (line ++ x0a :: rest) None []) =
    (true, mkJSONScanner rest None line) /\
  (line <> [] ->
   Scan (mkJSONScanner line None []) = (true, mkJSONScanner [] None line)) /\
  Scan (mkJSONScanner [] None []) = (false, mkJSONScanner [] None []).
Proof.
  cbv zeta.
  apply (Scan_delivers_lines (list_byte_of_string "{}") (list_byte_of_string "[]")
           None []).
  vm_compute. intros [Hb|[Hb|[]]]; discriminate Hb.
Defined.

Lemma File_CreateAuditEvent_only_appends_witness :
  let l := FileAuditLogger.mk "audit.log" in
  let err : option error := None in
  (err <> None -> os_file_alice = os0) /\
  (err = None ->
   exists contents eventJSON,
     files os0 !! FileAuditLogger.filePath l = Some contents /\
     json_MarshalEvent (JSONCodec:=Go_json)
       (new_event "alice" "User logged in" "Login from 192.168.1.1" 1700000000 123
                  JNull 1700000500) = Some eventJSON /\
     files os_file_alice !! FileAuditLogger.filePath l =
       Some (contents ++ eventJSON ++ [x0a])) /\
  (forall name, name <> FileAuditLogger.filePath l ->
                files os_file_alice !! name = files os0 !! name) /\
  databases os_file_alice = databases os0.
Proof.
  cbv zeta.
  apply (File_CreateAuditEvent_only_appends (H:=Go_json) (FileAuditLogger.mk "audit.log")
           "alice" "User logged in" "Login from 192.168.1.1" 1700000000 123 JNull
           1700000500 os0 None os_file_alice).
  vm_compute. reflexivity.
Defined.





Lemma InitAuditLogger_again_witness :
  let config : gmap string string := {["filePath" := "audit.log"]} in
  let st := mkState file_logger os0 in
  (forall l, loggerInstance st = File_AuditLogger (Some l) ->
             config !! "filePath" = Some (FileAuditLogger.filePath l) ->
             InitAuditLogger FileLoggerType config st = (None, st)) /\
  (forall l, loggerInstance st = DB_AuditLogger (Some l) ->
             config !! "dbPath" = Some (DBAuditLogger.db l) ->
             InitAuditLogger DBLoggerType config st = (None, st)).
Proof.
  cbv zeta.
  apply (InitAuditLogger_again {["filePath" := "audit.log"]} (mkState file_logger os0)).
  exact store_ok_file_os0.
Defined.

Lemma InitAuditLogger_success_witness :
  let config : gmap string string := {["filePath" := "audit.log"]} in
  let st' := mkState file_logger os0 in
  GetAuditLogger st' = (loggerInstance st', None) /\
  ((FileLoggerType = FileLoggerType /\
    exists filePath,
      config !! "filePath" = Some filePath /\
      loggerInstance st' = File_AuditLogger (Some (FileAuditLogger.mk filePath)) /\
      os_Stat filePath (env st') <> StatNotExist) \/
   (FileLoggerType = DBLoggerType /\
    exists dbPath,
      config !! "dbPath" = Some dbPath /\
      loggerInstance st' = DB_AuditLogger (Some (DBAuditLogger.mk dbPath)) /\
      is_Some (databases (env st') !! dbPath) /\
      dbPath ∉ db_unavailable (env st'))).
Proof.
  cbv zeta.
  apply (InitAuditLogger_success FileLoggerType {["filePath" := "audit.log"]} st0
           (mkState file_logger os0)).
  vm_compute. reflexivity.
Defined.


Lemma new_database_is_empty_witness :
  let config : gmap string string := {["dbPath" := "new.db"]} in
  let st := mkState file_logger os_file in
  exists st1,
    InitAuditLogger DBLoggerType config st = (None, st1) /\
    files (env st1) = files (env st) /\
    forall tenant startEpochSec endEpochSec,
      ReadAuditEvents (H:=Go_json) tenant startEpochSec endEpochSec st1 =
        Returns ([], None).
Proof.
  cbv zeta.
  apply (new_database_is_empty (H:=Go_json) {["dbPath" := "new.db"]} "new.db"
           (mkState file_logger os_file)).
  - vm_compute. reflexivity.
  - vm_compute. discriminate.
  - vm_compute. reflexivity.
Defined.

Lemma DB_ReadAuditEvents_scans_the_selected_rows_witness :
  let l := DBAuditLogger.mk "audit.db" in
  let rows := select (query_of 123 0 0) [null_metadata_row] in
  (Forall scannable rows ->
   DBAuditLogger.ReadAuditEvents (H:=Go_json) l 123 0 0 os_null_metadata =
     (event_of_row (H:=Go_json) <$> rows, None)) /\
  (Exists (fun row => extra_msg row = None) rows ->
   DBAuditLogger.ReadAuditEvents (H:=Go_json) l 123 0 0 os_null_metadata =
     ([], Some ErrScanRow)).
Proof.
  cbv zeta.
  apply (DB_ReadAuditEvents_scans_the_selected_rows (H:=Go_json)
           (DBAuditLogger.mk "audit.db") 123 0 0 os_null_metadata [null_metadata_row]).
  - vm_compute. discriminate.
  - vm_compute. reflexivity.
Defined.

Lemma row_with_unreadable_metadata_is_returned_witness :
  exists events,
    DBAuditLogger.ReadAuditEvents (H:=Go_json) (DBAuditLogger.mk "audit.db") 123 0 0
      os_null_metadata = (events, None) /\
    In (mkAuditEvent (username null_metadata_row) (action_string null_metadata_row)
                     "Login from 192.168.1.1" (epoch_timestamp_sec null_metadata_row)
                     (org_id null_metadata_row) JNull) events.
Proof.
  apply (row_with_unreadable_metadata_is_returned (H:=Go_json)
           (DBAuditLogger.mk "audit.db") 123 0 0 os_null_metadata null_metadata_row
           "Login from 192.168.1.1").
  - split; [vm_compute; discriminate|]. exists [null_metadata_row].
    split; [vm_compute; reflexivity|]. repeat constructor. by eexists.
  - vm_compute. by left.
  - reflexivity.
  - vm_compute. reflexivity.
  - by left.
Defined.

Lemma wildcard_pattern_matches_by_prefix_witness :
  pattern_matches ("GET" +:+ " " +:+ ("/users" +:+ "*")) "GET" "/users/7" = true <->
  ("GET" = "*" \/ "GET" = "GET") /\ exists rest, "/users/7" = "/users" +:+ rest.
Proof.
  apply (wildcard_pattern_matches_by_prefix "GET" "/users" "GET" "/users/7");
    reflexivity.
Defined.

Lemma exact_pattern_matches_the_path_witness :
  pattern_matches ("GET" +:+ " " +:+ "/users") "GET" "/users" = true <->
  ("GET" = "*" \/ "GET" = "GET") /\ "/users" = "/users".
Proof.
  apply (exact_pattern_matches_the_path "GET" "/users" "GET" "/users");
    [reflexivity|reflexivity|].
  intros prefix Hprefix.
  apply (f_equal (fun s => strings_HasSuffix s "*")) in Hprefix.
  rewrite HasSuffix_append in Hprefix. vm_compute in Hprefix. discriminate Hprefix.
Defined.


Lemma handlers_refuse_other_methods_witness :
  let refused :=
    Returns (http_Error no_response "Method not allowed" StatusMethodNotAllowed,
             @nil error, st0) in
  handleLogin (H:=Go_json) request ∅ 1700000500 1700000501 no_response st0 = refused /\
  handleDeleteIndex (H:=Go_json) request ∅ 1700000500 1700000501 no_response st0
    = refused /\
  handleCreateDashboard (H:=Go_json) 1700000499 request ∅ 1700000500 1700000501
    no_response st0 = refused /\
  status (http_Error no_response "Method not allowed" StatusMethodNotAllowed)
    = Some 405%Z /\
  forall r', handleLogout (H:=Go_json) request ∅ 1700000500 1700000501 no_response st0
             = handleLogout (H:=Go_json) r' ∅ 1700000500 1700000501 no_response st0.
Proof.
  cbv zeta.
  apply (handlers_refuse_other_methods (H:=Go_json) 1700000499 request ∅ 1700000500
           1700000501 no_response st0).
  vm_compute. discriminate.
Defined.



Lemma narrower_query_filters_the_answer_witness :
  call_ReadAuditEvents (H:=Go_json) file_logger 123 1700000050 1700000100 os_file =
    Returns (List.filter (in_range 1700000050 1700000100) [alice; bob], None).
Proof.
  apply (narrower_query_filters_the_answer (H:=Go_json) file_logger 123 0 0
           1700000050 1700000100 os_file [alice; bob]).
  - exact store_ok_os_file.
  - lia.
  - lia.
  - right. reflexivity.
  - vm_compute. reflexivity.
Defined.

Lemma read_loop_ends_at_the_end_of_the_file_witness :
  let scanner := NewJSONScanner (list_byte_of_string "{}") in
  let result :=
    FileAuditLogger.scan_events (H:=Go_json) 5 123 0 0 scanner [] in
  result = FileAuditLogger.scan_events (H:=Go_json) (S (length (file scanner))) 123 0 0
             scanner [] /\
  file result.2 = [] /\
  Scan result.2 = (false, result.2) /\
  Err result.2 = Err scanner.
Proof.
  cbv zeta.
  apply (read_loop_ends_at_the_end_of_the_file (H:=Go_json) 5 123 0 0
           (NewJSONScanner (list_byte_of_string "{}")) []).
  simpl. lia.
Defined.


Lemma handlers_return_after_main_witness :
  let st1 := mkState file_logger os0 in
  loggerInstance st1 = File_AuditLogger (Some (FileAuditLogger.mk "audit.log")) /\
  forall st2 handler r form now clock w,
    loggerInstance st2 = loggerInstance st1 ->
    In handler (handlers (H:=Go_json) 1700000499) ->
    exists w' errs st3,
      handler r form now clock w st2 = Returns (w', errs, st3) /\
      loggerInstance st3 = loggerInstance st2.
Proof.
  cbv zeta.
  apply (handlers_return_after_main (H:=Go_json) 1700000499 st0
           (mkState file_logger os0)).
  vm_compute. reflexivity.
Defined.

Lemma missing_user_is_recorded_as_unknown_witness :
  let st := mkState file_logger os0 in
  getUsernameFromContext (Context request) = "unknown" /\
  exists st2 event,
    AuditMiddleware (H:=Go_json) (fun _ => "1ms") (map_to_list mapping)
      (fun _ st => ([], st)) request 1000000 1700000500 st = Returns st2 /\
    Username event = "unknown" /\
    OrgID event = getOrgIDFromContext (Context request) /\
    stored (H:=Go_json) (loggerInstance st2) (env st2) =
      stored (H:=Go_json) file_logger os0 ++ [event].
Proof.
  cbv zeta.
  apply (missing_user_is_recorded_as_unknown (H:=Go_json) (fun _ => "1ms")
           (map_to_list mapping) (fun _ st => ([], st)) request 1000000 1700000500
           (mkState file_logger os0)).
  - intros username. vm_compute. discriminate.
  - exact store_ok_file_os0.
  - reflexivity.
  - intros e. eexists. reflexivity.
Defined.
